(** * A turn-based fighting game: the battle engine of [Game]

    Shallow embedding of the class [Game] (reset_cooldowns, show_moves,
    apply_move, take_turn, reduce_cooldowns, play, __lt__) and the
    properties of its turn resolution.

    Python dictionaries keyed by strings are [gmap string _]; a failed
    subscript raises [KeyError] or [IndexError], which the model returns as
    a value.  Integers are unbounded, hence [Z]. *)

From stdpp Require Import gmap strings list fin_maps.
From Stdlib Require Import ZArith Lia.

Local Open Scope Z_scope.

(** ** Exceptions and results *)

Inductive exn : Type :=
| KeyError
| IndexError
| EOFError.

(** [OutOfFuel] is not a Python outcome: it marks a run of the battle loop
    that was cut off by the bound on the number of iterations. *)
Inductive result (A : Type) : Type :=
| Ok (a : A)
| Raise (e : exn)
| OutOfFuel.

Arguments Ok {A} a.
Arguments Raise {A} e.
Arguments OutOfFuel {A}.

#[global] Instance result_ret : MRet result := fun _ a => Ok a.
#[global] Instance result_bind : MBind result := fun _ _ f r =>
  match r with
  | Ok a => f a
  | Raise e => Raise e
  | OutOfFuel => OutOfFuel
  end.

(** [d[k]] on a dictionary. *)
Definition getitem {V : Type} (d : gmap string V) (k : string) : result V :=
  match d !! k with
  | Some v => Ok v
  | None => Raise KeyError
  end.

(** [l[i]] on a list, for an index that is not negative. *)
Definition index {A : Type} (l : list A) (i : nat) : result A :=
  match l !! i with
  | Some x => Ok x
  | None => Raise IndexError
  end.

(** ** Data model *)

(** A move is a dictionary whose first key is the move's name; the keys
    "damage", "cooldown" and "effect" are read with [move["damage"]],
    [move.get("cooldown", 0)] and [move.get("effect")], so the last two may
    be absent without an error. *)
Record Move : Type := {
  move_name : string;
  damage : option Z;
  cooldown : option Z;
  effect : option string
}.

Record Character : Type := {
  name : string;
  health : Z;
  defense : Z;
  player_moves : list Move
}.

#[global] Instance Move_eq_dec : EqDecision Move.
Proof. solve_decision. Defined.

#[global] Instance Character_eq_dec : EqDecision Character.
Proof. solve_decision. Defined.

(** The attributes of a [Game] once the two fighters are chosen. *)
Record Game : Type := {
  player : Character;
  cpu : Character;
  cooldowns : gmap string (gmap string Z);
  active_defenses : gmap string bool
}.

(** [apply_move] and [take_turn] receive the two fighters as references to
    [self.player] and [self.cpu]; a [Side] names which one is the attacker,
    the defender is the other one. *)
Inductive Side : Type := Player | Cpu.

Definition opponent (s : Side) : Side :=
  match s with Player => Cpu | Cpu => Player end.

Definition fighter (s : Side) (g : Game) : Character :=
  match s with Player => player g | Cpu => cpu g end.

Definition set_health (c : Character) (h : Z) : Character :=
  {| name := name c; health := h; defense := defense c;
     player_moves := player_moves c |}.

Definition set_fighter (s : Side) (c : Character) (g : Game) : Game :=
  match s with
  | Player => {| player := c; cpu := cpu g; cooldowns := cooldowns g;
                 active_defenses := active_defenses g |}
  | Cpu => {| player := player g; cpu := c; cooldowns := cooldowns g;
              active_defenses := active_defenses g |}
  end.

Definition set_cooldowns (cds : gmap string (gmap string Z)) (g : Game) : Game :=
  {| player := player g; cpu := cpu g; cooldowns := cds;
     active_defenses := active_defenses g |}.

Definition set_active_defenses (ads : gmap string bool) (g : Game) : Game :=
  {| player := player g; cpu := cpu g; cooldowns := cooldowns g;
     active_defenses := ads |}.

(** ** Console output

    Each constructor stands for one printed line; the fields are the values
    interpolated in it. *)
Inductive Line : Type :=
| AvailableCharacters
| CharacterLine (idx : nat) (who : string) (hp def : Z)
| InvalidChoice
| InvalidInput
| InvalidMove
| Chose (you them : string)
| MovesOf (who : string)
| MoveLine (idx : nat) (move : string) (cd : Z)
| OnCooldown (move : string)
| BlockedOrDodged (defender : string)
| UsedEffect (attacker move eff : string)
| Dealt (attacker move : string) (dmg : Z)
| EffectApplied (eff : string)
| HealthOf (who : string) (hp : Z)
| YourTurn
| CpuTurn
| YouLost
| YouWon.

#[global] Instance Line_eq_dec : EqDecision Line.
Proof. solve_decision. Defined.

(** ** reset_cooldowns *)

(** [{list(move.keys())[0]: 0 for move in moves}]: a later move of the same
    name overwrites the earlier entry, with the same value. *)
Definition zero_table (moves : list Move) : gmap string Z :=
  foldl (fun tbl mv => <[move_name mv := 0]> tbl) ∅ moves.

Definition reset_one (c : Character) (g : Game) : Game :=
  set_active_defenses (<[name c := false]> (active_defenses g))
    (set_cooldowns (<[name c := zero_table (player_moves c)]> (cooldowns g)) g).

Definition reset_cooldowns (g : Game) : Game :=
  reset_one (cpu g) (reset_one (player g) g).

(** ** apply_move *)

(** [move.get("effect") in ["blocks next attack", "dodge next attack"]] *)
Definition is_defensive (e : option string) : bool :=
  match e with
  | Some s => bool_decide (s = "blocks next attack"%string)
              || bool_decide (s = "dodge next attack"%string)
  | None => false
  end.

(** [self.cooldowns[who][move] = v] *)
Definition store_cooldown (who move : string) (v : Z) (g : Game) : result Game :=
  tbl ← getitem (cooldowns g) who;
  Ok (set_cooldowns (<[who := <[move := v]> tbl]> (cooldowns g)) g).

Definition effect_lines (e : option string) : list Line :=
  match e with
  | Some s => [EffectApplied s]
  | None => []
  end.

Definition apply_move (g : Game) (att : Side) (move_key : nat)
  : result (bool * Game * list Line) :=
  let attacker := fighter att g in
  let defender := fighter (opponent att) g in
  move ← index (player_moves attacker) move_key;
  let mname := move_name move in
  tbl ← getitem (cooldowns g) (name attacker);
  cd ← getitem tbl mname;
  if bool_decide (cd > 0) then Ok (false, g, [OnCooldown mname])
  else
    flag ← getitem (active_defenses g) (name defender);
    if flag : bool then
      let g1 := set_active_defenses
                  (<[name defender := false]> (active_defenses g)) g in
      g2 ← store_cooldown (name attacker) mname (default 0 (cooldown move)) g1;
      Ok (true, g2, [BlockedOrDodged (name defender)])
    else if is_defensive (effect move) then
      let g1 := set_active_defenses
                  (<[name attacker := true]> (active_defenses g)) g in
      g2 ← store_cooldown (name attacker) mname (default 0 (cooldown move)) g1;
      Ok (true, g2, [UsedEffect (name attacker) mname (default ""%string (effect move))])
    else
      dmg ← from_option Ok (Raise KeyError) (damage move);
      let dmg1 := dmg - defense defender in
      let dmg2 := Z.max dmg1 0 in
      let g1 := set_fighter (opponent att)
                  (set_health defender (health defender - dmg2)) g in
      g2 ← store_cooldown (name attacker) mname (default 0 (cooldown move)) g1;
      Ok (true, g2, Dealt (name attacker) mname dmg2 :: effect_lines (effect move)).

(** ** reduce_cooldowns *)

(** The body of the inner loop, on one entry. *)
Definition tick (cd : Z) : Z :=
  if bool_decide (cd > 0) then cd - 1 else cd.

(** The inner loop over [self.cooldowns[who]]: every entry is visited once
    and the entries are independent, so the order of the keys is immaterial. *)
Definition reduce_one (who : string) (g : Game) : result Game :=
  tbl ← getitem (cooldowns g) who;
  Ok (set_cooldowns (<[who := fmap (M := gmap string) tick tbl]> (cooldowns g)) g).

Definition reduce_cooldowns (g : Game) : result Game :=
  g1 ← reduce_one (name (player g)) g;
  reduce_one (name (cpu g)) g1.

(** ** The console: typed lines and random draws *)

(** A typed line is [Some z] when [int(input(..))] yields [z] and [None]
    when it raises [ValueError]; an exhausted [stdin] is end of file.  Each
    element of [entropy] is one raw draw of the generator; a run that needs
    more draws than the list holds is cut off. *)
Record Console : Type := {
  stdin : list (option Z);
  entropy : list nat
}.

(** The [while True] loop around [int(input(..)) - 1] that both
    [choose_character] and [take_turn] use: it returns the first typed
    number whose predecessor lies in [0, n), printing [bad] for a number out
    of range and [InvalidInput] for a line that is not a number. *)
Fixpoint prompt_index (n : nat) (bad : Line) (typed : list (option Z))
  : result (nat * list (option Z) * list Line) :=
  match typed with
  | [] => Raise EOFError
  | None :: rest =>
      '(i, rest', out) ← prompt_index n bad rest;
      Ok (i, rest', InvalidInput :: out)
  | Some z :: rest =>
      let choice := z - 1 in
      if bool_decide (0 <= choice) && bool_decide (choice < Z.of_nat n)
      then Ok (Z.to_nat choice, rest, [])
      else
        '(i, rest', out) ← prompt_index n bad rest;
        Ok (i, rest', bad :: out)
  end.

(** [random.choice(l)]: the element at a position below [len(l)], here the
    draw reduced modulo the length; an empty sequence raises [IndexError]. *)
Definition random_choice {A : Type} (l : list A) (draws : list nat)
  : result (A * list nat) :=
  match l with
  | [] => Raise IndexError
  | _ :: _ =>
      match draws with
      | [] => OutOfFuel
      | d :: rest =>
          x ← index l (d mod length l)%nat;
          Ok (x, rest)
      end
  end.

(** ** show_moves and take_turn *)

Fixpoint show_moves_from (g : Game) (who : string) (idx : nat) (moves : list Move)
  : result (list Line) :=
  match moves with
  | [] => Ok []
  | mv :: rest =>
      tbl ← getitem (cooldowns g) who;
      cd ← getitem tbl (move_name mv);
      out ← show_moves_from g who (S idx) rest;
      Ok (MoveLine (S idx) (move_name mv) cd :: out)
  end.

Definition show_moves (g : Game) (c : Character) : result (list Line) :=
  out ← show_moves_from g (name c) 0 (player_moves c);
  Ok (MovesOf (name c) :: out).

(** [attacker == self.player] compares two dictionaries by value. *)
Definition take_turn (g : Game) (att : Side) (io : Console)
  : result (Game * Console * list Line) :=
  let attacker := fighter att g in
  '(move_idx, io1, out1) ←
    (if bool_decide (attacker = player g) then
       shown ← show_moves g attacker;
       '(i, rest, out) ← prompt_index (length (player_moves attacker))
                            InvalidMove (stdin io);
       Ok (i, {| stdin := rest; entropy := entropy io |}, shown ++ out)
     else
       '(i, rest) ← random_choice (seq 0 (length (player_moves attacker)))
                      (entropy io);
       Ok (i, {| stdin := stdin io; entropy := rest |}, []));
  '(_, g1, out2) ← apply_move g att move_idx;
  Ok (g1, io1, out1 ++ out2).

(** ** __lt__ and play *)

(** [__lt__(self, other)] does not read [other]. *)
Definition Game_lt (self : Game) (other : Character) : bool :=
  bool_decide (health (player self) < health (cpu self)).

Definition alive (g : Game) : bool :=
  bool_decide (health (player g) > 0) && bool_decide (health (cpu g) > 0).

(** The [while] loop of [play]; [fuel] bounds the number of iterations. *)
Fixpoint play_loop (fuel : nat) (g : Game) (io : Console) (turn : Z)
  : result (Game * Console * list Line) :=
  if alive g then
    match fuel with
    | O => OutOfFuel
    | S fuel' =>
        let header := [HealthOf (name (player g)) (health (player g));
                       HealthOf (name (cpu g)) (health (cpu g))] in
        '(g1, io1, out1) ←
          (if bool_decide (turn = 0) then
             '(g1, io1, out) ← take_turn g Player io;
             Ok (g1, io1, YourTurn :: out)
           else
             '(g1, io1, out) ← take_turn g Cpu io;
             Ok (g1, io1, CpuTurn :: out));
        g2 ← reduce_cooldowns g1;
        '(g3, io3, out3) ← play_loop fuel' g2 io1 (1 - turn);
        Ok (g3, io3, header ++ out1 ++ out3)
    end
  else Ok (g, io, []).

(** The last statement of [play]: [if self < self.cpu]. *)
Definition verdict (g : Game) : Line :=
  if Game_lt g (cpu g) then YouLost else YouWon.

(** [play] from the point where both fighters are chosen. *)
Definition play_chosen (fuel : nat) (g : Game) (io : Console)
  : result (Game * Console * list Line) :=
  '(g1, io1, out) ← play_loop fuel (reset_cooldowns g) io 0;
  Ok (g1, io1, out ++ [verdict g1]).

(** ** choose_character and the whole of play *)

Definition character_lines (characters : list Character) : list Line :=
  imap (fun idx c => CharacterLine (S idx) (name c) (health c) (defense c))
       characters.

(** [__init__] leaves both dictionaries empty. *)
Definition choose_character (characters : list Character) (io : Console)
  : result (Game * Console * list Line) :=
  '(choice, rest, out) ← prompt_index (length characters) InvalidChoice (stdin io);
  p ← index characters choice;
  '(c, draws) ← random_choice (delete choice characters) (entropy io);
  Ok ({| player := p; cpu := c; cooldowns := ∅; active_defenses := ∅ |},
      {| stdin := rest; entropy := draws |},
      AvailableCharacters :: character_lines characters
        ++ out ++ [Chose (name p) (name c)]).

Definition play (fuel : nat) (characters : list Character) (io : Console)
  : result (Game * Console * list Line) :=
  '(g, io1, out1) ← choose_character characters io;
  '(g1, io2, out2) ← play_chosen fuel g io1;
  Ok (g1, io2, out1 ++ out2).

(** ** Observations on a state *)

(** The remaining cooldown [self.cooldowns[who][move]], when it exists. *)
Definition remaining (g : Game) (who move : string) : option Z :=
  cooldowns g !! who ≫= fun t : gmap string Z => t !! move.

(** The defense flag [self.active_defenses[who]], when it exists. *)
Definition flag_of (g : Game) (who : string) : option bool :=
  active_defenses g !! who.

(** Every move of [c] configures a cooldown that is not negative. *)
Definition configured_nonneg (c : Character) : Prop :=
  Forall (fun mv => 0 <= default 0 (cooldown mv)) (player_moves c).

(** No entry in the cooldown tables of the two fighters is negative. *)
Definition tables_nonneg (g : Game) : Prop :=
  forall (s : Side) (move : string) (cd : Z),
    remaining g (name (fighter s g)) move = Some cd -> 0 <= cd.

(** [selects n k d]: among [n] moves, the draw [d] makes [random.choice]
    return the index [k]. *)
Definition selects (n k d : nat) : bool :=
  match random_choice (seq 0 n) [d] with
  | Ok (x, _) => Nat.eqb x k
  | _ => false
  end.

(** ** Sequences of engine operations

    [play] changes the game only through [apply_move] and
    [reduce_cooldowns]; a list of [Action]s is one interleaving of them. *)
Inductive Action : Type :=
| Execute (att : Side) (move_key : nat)
| Elapse.

Fixpoint run (acts : list Action) (g : Game) : result (Game * list Line) :=
  match acts with
  | [] => Ok (g, [])
  | Execute att move_key :: rest =>
      '(_, g1, out1) ← apply_move g att move_key;
      '(g2, out2) ← run rest g1;
      Ok (g2, out1 ++ out2)
  | Elapse :: rest =>
      g1 ← reduce_cooldowns g;
      run rest g1
  end.





(** ** The branches of [apply_move]

    [Branch g att mv tbl b g' out]: executing [mv], whose cooldown table is
    [tbl], returns [b], leaves the game [g'] and prints [out]. *)
Inductive Branch (g : Game) (att : Side) (mv : Move) (tbl : gmap string Z)
  : bool -> Game -> list Line -> Prop :=
| Refused :
    Branch g att mv tbl false g [OnCooldown (move_name mv)]
| Nullified :
    flag_of g (name (fighter (opponent att) g)) = Some true ->
    Branch g att mv tbl true
      (set_cooldowns
         (<[name (fighter att g) := <[move_name mv := default 0 (cooldown mv)]> tbl]>
            (cooldowns g))
         (set_active_defenses
            (<[name (fighter (opponent att) g) := false]> (active_defenses g)) g))
      [BlockedOrDodged (name (fighter (opponent att) g))]
| Activated :
    flag_of g (name (fighter (opponent att) g)) = Some false ->
    is_defensive (effect mv) = true ->
    Branch g att mv tbl true
      (set_cooldowns
         (<[name (fighter att g) := <[move_name mv := default 0 (cooldown mv)]> tbl]>
            (cooldowns g))
         (set_active_defenses
            (<[name (fighter att g) := true]> (active_defenses g)) g))
      [UsedEffect (name (fighter att g)) (move_name mv)
         (default ""%string (effect mv))]
| Hit (dmg : Z) :
    flag_of g (name (fighter (opponent att) g)) = Some false ->
    is_defensive (effect mv) = false ->
    damage mv = Some dmg ->
    Branch g att mv tbl true
      (set_cooldowns
         (<[name (fighter att g) := <[move_name mv := default 0 (cooldown mv)]> tbl]>
            (cooldowns g))
         (set_fighter (opponent att)
            (set_health (fighter (opponent att) g)
               (health (fighter (opponent att) g)
                - Z.max (dmg - defense (fighter (opponent att) g)) 0)) g))
      (Dealt (name (fighter att g)) (move_name mv)
         (Z.max (dmg - defense (fighter (opponent att) g)) 0)
         :: effect_lines (effect mv)).

(** ** The battle as the specification words it

    Turns are numbered from 0 and alternate strictly, the player first; a
    turn is [take_turn] followed by [reduce_cooldowns]; the battle goes on
    while both fighters have positive health, and that condition is looked
    at before every single turn.  [Battle k g io g' io' n]: starting at turn
    number [k] in game [g], the battle ends in [g'] after [n] turns. *)
Definition side_of_turn (k : nat) : Side :=
  if Nat.even k then Player else Cpu.

(** The value of the variable [turn] at turn number [k]. *)
Definition turn_of (k : nat) : Z :=
  if Nat.even k then 0 else 1.

Inductive Battle : nat -> Game -> Console -> Game -> Console -> nat -> Prop :=
| Battle_over k g io :
    alive g = false ->
    Battle k g io g io 0
| Battle_turn k g io g1 io1 out1 g2 g' io' n :
    alive g = true ->
    take_turn g (side_of_turn k) io = Ok (g1, io1, out1) ->
    reduce_cooldowns g1 = Ok g2 ->
    Battle (S k) g2 io1 g' io' n ->
    Battle k g io g' io' (S n).

(** ** A sample roster, used to run the definitions *)

Module Sample.

Definition punch : Move :=
  {| move_name := "Punch"; damage := Some 8; cooldown := Some 0; effect := None |}.
Definition sidestep : Move :=
  {| move_name := "Sidestep"; damage := Some 0; cooldown := Some 2;
     effect := Some "dodge next attack"%string |}.
Definition kick : Move :=
  {| move_name := "Kick"; damage := Some 25; cooldown := Some 1; effect := None |}.
Definition guard : Move :=
  {| move_name := "Guard"; damage := None; cooldown := None;
     effect := Some "blocks next attack"%string |}.
Definition slam : Move :=
  {| move_name := "Slam"; damage := Some 9; cooldown := Some 3; effect := None |}.

Definition A : Character :=
  {| name := "A"; health := 20; defense := 2;
     player_moves := [punch; sidestep; kick] |}.
Definition B : Character :=
  {| name := "B"; health := 20; defense := 3;
     player_moves := [punch; guard; slam] |}.

Definition chosen : Game :=
  {| player := A; cpu := B; cooldowns := ∅; active_defenses := ∅ |}.

Definition start : Game := reset_cooldowns chosen.

(** The game and the lines left by a sequence of operations; [g] itself
    and no line when one of them raised. *)
Definition game_after (acts : list Action) (g : Game) : Game :=
  match run acts g with
  | Ok (g', _) => g'
  | _ => g
  end.

Definition lines_after (acts : list Action) (g : Game) : list Line :=
  match run acts g with
  | Ok (_, out) => out
  | _ => []
  end.

(** The game left by one turn, and by the end of a turn. *)
Definition turn_game (g : Game) (att : Side) (io : Console) : Game :=
  match take_turn g att io with
  | Ok (g', _, _) => g'
  | _ => g
  end.

Definition ticked (g : Game) : Game :=
  match reduce_cooldowns g with
  | Ok g' => g'
  | _ => g
  end.

(** A kicks: "Kick" is then on cooldown for one turn. *)
Definition kicked : Game := game_after [Execute Player 2] start.

(** A sidesteps: A's defense flag is then set. *)
Definition sidestepped : Game := game_after [Execute Player 1] start.

(** A punches, B slams, A punches: on B's next turn "Slam" has one turn of
    cooldown left. *)
Definition slammed : Game :=
  game_after [Execute Player 0; Elapse; Execute Cpu 2; Elapse;
              Execute Player 0; Elapse] start.

(** The human types 3: A kicks B for 22 out of 20 health. *)
Definition ko_console : Console := {| stdin := [Some 3]; entropy := [] |}.

Definition ko_game : Game :=
  match play_chosen 1 chosen ko_console with
  | Ok (g, _, _) => g
  | _ => chosen
  end.

Definition ko_out : list Line :=
  match play_chosen 1 chosen ko_console with
  | Ok (_, _, out) => out
  | _ => []
  end.

(** Two fighters that enter the battle with no health left. *)
Definition spent : Game :=
  {| player := set_health A 0; cpu := set_health B 0;
     cooldowns := ∅; active_defenses := ∅ |}.

Definition silent : Console := {| stdin := []; entropy := [] |}.

(** A sidesteps, B punches into the dodge, A punches, B guards. *)
Definition skirmish : list Action :=
  [Execute Player 1; Elapse; Execute Cpu 0; Elapse;
   Execute Player 0; Elapse; Execute Cpu 1; Elapse].

Definition skirmish_game : Game := game_after skirmish start.

Definition skirmish_out : list Line := lines_after skirmish start.

(** The human types 2 and dodges; the CPU then draws its punch. *)
Definition dodge_console : Console :=
  {| stdin := [Some 2]; entropy := [0%nat] |}.

Definition drawn : Console := {| stdin := []; entropy := [0%nat] |}.

Definition dodged : Game := turn_game start Player dodge_console.

Definition dodged_ticked : Game := ticked dodged.

Definition punched : Game := turn_game dodged_ticked Cpu drawn.

(** A roster whose data configures a negative cooldown. *)
Definition lunge : Move :=
  {| move_name := "Lunge"; damage := Some 4; cooldown := Some (-1);
     effect := None |}.

Definition hasty : Game :=
  {| player := {| name := "A"; health := 20; defense := 2;
                  player_moves := [lunge] |};
     cpu := B; cooldowns := ∅; active_defenses := ∅ |}.

Definition lunged : Game := game_after [Execute Player 0] (reset_cooldowns hasty).

End Sample.

(** ** Further observations on the console and on the roster *)

(** A typed line that the prompt loop turns down among [n] choices. *)
Definition rejected (n : nat) (t : option Z) : Prop :=
  match t with
  | None => True
  | Some z => ~ (1 <= z <= Z.of_nat n)
  end.

(** The line printed for a typed line that is turned down. *)
Definition complaint (bad : Line) (t : option Z) : Line :=
  match t with
  | None => InvalidInput
  | Some _ => bad
  end.


(** The lines of [show_moves] when every move is ready. *)
Definition ready_lines (c : Character) : list Line :=
  MovesOf (name c)
    :: imap (fun idx mv => MoveLine (S idx) (move_name mv) 0) (player_moves c).

(** Every move of [c] that is not a block or a dodge has a "damage" key. *)
Definition playable (c : Character) : Prop :=
  Forall (fun mv => is_defensive (effect mv) = true \/ damage mv <> None)
         (player_moves c).

(** The dictionaries hold what the two fighters need: a defense flag and a
    cooldown table under each name, and in it an entry for each move. *)
Definition stocked (g : Game) : Prop :=
  forall s,
    flag_of g (name (fighter s g)) <> None
    /\ cooldowns g !! name (fighter s g) <> None
    /\ forall mv, mv ∈ player_moves (fighter s g) ->
         remaining g (name (fighter s g)) (move_name mv) <> None.

(** ** More rosters and consoles, used to run the definitions *)

Module Arena.

Definition roster : list Character := [Sample.A; Sample.B].

(** Two typed lines that are turned down, then the choice of the second
    character, and one raw draw. *)
Definition pick_console : Console :=
  {| stdin := [None; Some 5; Some 2]; entropy := [7%nat] |}.

Definition picked : Game :=
  {| player := Sample.B; cpu := Sample.A; cooldowns := ∅; active_defenses := ∅ |}.

Definition pick_lines : list Line :=
  match choose_character roster pick_console with
  | Ok (_, _, out) => out
  | _ => []
  end.

Definition loner : list Character := [Sample.A].

(** The first character is chosen, then its third move. *)
Definition full_console : Console :=
  {| stdin := [Some 1; Some 3]; entropy := [0%nat] |}.

Definition full_out : list Line :=
  match play 1 roster full_console with
  | Ok (_, _, out) => out
  | _ => []
  end.

(** Two fighters under one name. *)
Definition twin : Character :=
  {| name := "A"; health := 20; defense := 3; player_moves := [Sample.slam] |}.

Definition twins : Game :=
  {| player := Sample.A; cpu := twin; cooldowns := ∅; active_defenses := ∅ |}.

Definition twins_slammed : Game :=
  Sample.game_after [Execute Cpu 0] (reset_cooldowns twins).

Definition twins_ticked : Game := Sample.ticked twins_slammed.




(** A CPU fighter without moves. *)
Definition idle : Game :=
  {| player := Sample.A;
     cpu := {| name := "I"; health := 9; defense := 0; player_moves := [] |};
     cooldowns := ∅; active_defenses := ∅ |}.

(** Two moves under one name. *)
Definition jab : Move :=
  {| move_name := "Strike"; damage := Some 5; cooldown := Some 3; effect := None |}.
Definition hook : Move :=
  {| move_name := "Strike"; damage := Some 7; cooldown := Some 0; effect := None |}.

Definition striker : Game :=
  reset_cooldowns
    {| player := {| name := "S"; health := 20; defense := 1;
                    player_moves := [jab; hook] |};
       cpu := Sample.B; cooldowns := ∅; active_defenses := ∅ |}.

Definition struck : Game := Sample.game_after [Execute Player 0] striker.

(** After A's dodge: the end of the turn, B's punch, the end of that turn. *)
Definition until_next_turn : list Action := [Elapse; Execute Cpu 0; Elapse].

Definition next_turn : Game := Sample.game_after until_next_turn Sample.sidestepped.

Definition next_turn_lines : list Line :=
  Sample.lines_after until_next_turn Sample.sidestepped.

Definition dodge_lines : list Line :=
  match take_turn Sample.start Player Sample.dodge_console with
  | Ok (_, _, out) => out
  | _ => []
  end.

End Arena.



(** ** One execution of a move *)

Section ApplyMove.

Variables (g : Game) (att : Side) (move_key : nat).
Variables (mv : Move) (tbl : gmap string Z) (cd : Z).

Let attacker := fighter att g.
Let defender := fighter (opponent att) g.

Hypothesis Hmove : player_moves attacker !! move_key = Some mv.
Hypothesis Htbl : cooldowns g !! name attacker = Some tbl.
Hypothesis Hcd : tbl !! move_name mv = Some cd.

Lemma apply_move_refused :
  cd > 0 -> apply_move g att move_key = Ok (false, g, [OnCooldown (move_name mv)]).
Proof using Hmove Htbl Hcd.
  intros Hpos. unfold apply_move, index, getitem.
  fold attacker. rewrite Hmove. cbn. rewrite Htbl. cbn. rewrite Hcd. cbn.
  rewrite bool_decide_eq_true_2; done.
Qed.

Lemma apply_move_ready :
  cd <= 0 ->
  apply_move g att move_key =
    (flag ← getitem (active_defenses g) (name defender);
     if flag : bool then
       Ok (true,
           set_cooldowns
             (<[name attacker := <[move_name mv := default 0 (cooldown mv)]> tbl]>
                (cooldowns g))
             (set_active_defenses
                (<[name defender := false]> (active_defenses g)) g),
           [BlockedOrDodged (name defender)])
     else if is_defensive (effect mv) then
       Ok (true,
           set_cooldowns
             (<[name attacker := <[move_name mv := default 0 (cooldown mv)]> tbl]>
                (cooldowns g))
             (set_active_defenses
                (<[name attacker := true]> (active_defenses g)) g),
           [UsedEffect (name attacker) (move_name mv)
              (default ""%string (effect mv))])
     else
       dmg ← from_option Ok (Raise KeyError) (damage mv);
       let applied := Z.max (dmg - defense defender) 0 in
       Ok (true,
           set_cooldowns
             (<[name attacker := <[move_name mv := default 0 (cooldown mv)]> tbl]>
                (cooldowns g))
             (set_fighter (opponent att)
                (set_health defender (health defender - applied)) g),
           Dealt (name attacker) (move_name mv) applied
             :: effect_lines (effect mv))).
Proof using Hmove Htbl Hcd.
  intros Hle. unfold apply_move, index, getitem.
  fold attacker defender. rewrite Hmove. cbn. rewrite Htbl. cbn. rewrite Hcd. cbn.
  rewrite bool_decide_eq_false_2 by lia.
  destruct (active_defenses g !! name defender) as [[|]|]; cbn; try done.
  - unfold store_cooldown, getitem. cbn. rewrite Htbl. done.
  - destruct (is_defensive (effect mv)).
    + unfold store_cooldown, getitem. cbn. rewrite Htbl. done.
    + destruct (damage mv) as [dmg|]; cbn; try done.
      unfold store_cooldown, getitem.
      replace (cooldowns (set_fighter (opponent att) _ g)) with (cooldowns g)
        by (destruct att; done).
      rewrite Htbl. done.
Qed.

End ApplyMove.

(** ** The four branches of [apply_move] *)

(** C2: a move whose remaining cooldown is positive is refused: [apply_move]
    returns [False] and the game (both healths, both defense flags, every
    cooldown entry) is the one it was given. *)
Theorem apply_move_on_cooldown_no_change
    (g : Game) (att : Side) (move_key : nat) (mv : Move) (cd : Z) :
  player_moves (fighter att g) !! move_key = Some mv ->
  remaining g (name (fighter att g)) (move_name mv) = Some cd ->
  cd > 0 ->
  exists g',
    apply_move g att move_key = Ok (false, g', [OnCooldown (move_name mv)])
    /\ g' = g
    /\ health (player g') = health (player g)
    /\ health (cpu g') = health (cpu g)
    /\ active_defenses g' = active_defenses g
    /\ cooldowns g' = cooldowns g
    /\ remaining g' (name (fighter att g)) (move_name mv) = Some cd.
Proof.
  intros Hmv Hrem Hpos. unfold remaining in Hrem.
  destruct (cooldowns g !! name (fighter att g)) as [tbl|] eqn:Htbl; [|done].
  cbn in Hrem. exists g.
  rewrite (apply_move_refused g att move_key mv tbl cd Hmv Htbl Hrem Hpos).
  unfold remaining. rewrite Htbl. auto 10.
Qed.

Example on_cooldown_scenario :
  apply_move Sample.start Player 2
    = Ok (true, Sample.kicked, [Dealt "A" "Kick" 22])
  /\ remaining Sample.kicked "A" "Kick" = Some 1
  /\ apply_move Sample.kicked Player 2
      = Ok (false, Sample.kicked, [OnCooldown "Kick"]).
Proof. repeat split; vm_compute; reflexivity. Qed.

Lemma apply_move_on_cooldown_no_change_witness :
  exists g',
    apply_move Sample.kicked Player 2 = Ok (false, g', [OnCooldown "Kick"])
    /\ g' = Sample.kicked
    /\ health (player g') = health (player Sample.kicked)
    /\ health (cpu g') = health (cpu Sample.kicked)
    /\ active_defenses g' = active_defenses Sample.kicked
    /\ cooldowns g' = cooldowns Sample.kicked
    /\ remaining g' "A" "Kick" = Some 1.
Proof.
  apply (apply_move_on_cooldown_no_change Sample.kicked Player 2 Sample.kick 1);
    [reflexivity | vm_compute; reflexivity | lia].
Defined.

(** C1: a plain attack (move off cooldown, defender without an active
    defense, no block or dodge effect) deals
    [max (move.damage - defender.defense) 0], which is never negative; the
    defender's health drops by exactly that amount, the attacker's health
    and both flags stay, and the attacker's cooldown for the move becomes
    the configured one, 0 when the move configures none. *)
Theorem apply_move_plain_attack
    (g : Game) (att : Side) (move_key : nat) (mv : Move) (cd dmg : Z) :
  player_moves (fighter att g) !! move_key = Some mv ->
  remaining g (name (fighter att g)) (move_name mv) = Some cd ->
  cd <= 0 ->
  flag_of g (name (fighter (opponent att) g)) = Some false ->
  is_defensive (effect mv) = false ->
  damage mv = Some dmg ->
  let applied := Z.max (dmg - defense (fighter (opponent att) g)) 0 in
  exists g',
    apply_move g att move_key =
      Ok (true, g', Dealt (name (fighter att g)) (move_name mv) applied
                      :: effect_lines (effect mv))
    /\ 0 <= applied
    /\ health (fighter (opponent att) g')
       = health (fighter (opponent att) g) - applied
    /\ health (fighter att g') = health (fighter att g)
    /\ remaining g' (name (fighter att g)) (move_name mv)
       = Some (default 0 (cooldown mv))
    /\ active_defenses g' = active_defenses g.
Proof.
  intros Hmv Hrem Hle Hflag Heff Hdmg applied. unfold remaining in Hrem.
  destruct (cooldowns g !! name (fighter att g)) as [tbl|] eqn:Htbl; [|done].
  cbn in Hrem. unfold flag_of in Hflag.
  rewrite (apply_move_ready g att move_key mv tbl cd Hmv Htbl Hrem Hle).
  unfold getitem. rewrite Hflag. cbn. rewrite Heff, Hdmg. cbn.
  eexists. split; [reflexivity|].
  split; [subst applied; lia|].
  unfold remaining. destruct att; cbn; rewrite !lookup_insert_eq; cbn;
    rewrite !lookup_insert_eq; auto.
Qed.

Lemma apply_move_plain_attack_witness :
  exists g',
    apply_move Sample.start Player 0 = Ok (true, g', [Dealt "A" "Punch" 5])
    /\ 0 <= 5
    /\ health (cpu g') = 20 - 5
    /\ health (player g') = 20
    /\ remaining g' "A" "Punch" = Some 0
    /\ active_defenses g' = active_defenses Sample.start.
Proof.
  apply (apply_move_plain_attack Sample.start Player 0 Sample.punch 0 8);
    [reflexivity | vm_compute; reflexivity | lia | vm_compute; reflexivity
    | reflexivity | reflexivity].
Defined.

(** C4: whatever the move is, a block or dodge move included, executing it
    off cooldown against a defender whose flag is set is nullified: the
    defender's flag is cleared and no other flag changes (so the attacker's
    own flag is not set by the move), the attacker's cooldown for the move
    becomes the configured one, and both fighters keep their health. *)
Theorem apply_move_against_active_defense
    (g : Game) (att : Side) (move_key : nat) (mv : Move) (cd : Z) :
  player_moves (fighter att g) !! move_key = Some mv ->
  remaining g (name (fighter att g)) (move_name mv) = Some cd ->
  cd <= 0 ->
  flag_of g (name (fighter (opponent att) g)) = Some true ->
  exists g',
    apply_move g att move_key =
      Ok (true, g', [BlockedOrDodged (name (fighter (opponent att) g))])
    /\ active_defenses g'
       = <[name (fighter (opponent att) g) := false]> (active_defenses g)
    /\ flag_of g' (name (fighter (opponent att) g)) = Some false
    /\ remaining g' (name (fighter att g)) (move_name mv)
       = Some (default 0 (cooldown mv))
    /\ player g' = player g
    /\ cpu g' = cpu g
    /\ (flag_of g' (name (fighter att g)) = Some true ->
        flag_of g (name (fighter att g)) = Some true).
Proof.
  intros Hmv Hrem Hle Hflag. unfold remaining in Hrem.
  destruct (cooldowns g !! name (fighter att g)) as [tbl|] eqn:Htbl; [|done].
  cbn in Hrem. unfold flag_of in Hflag.
  rewrite (apply_move_ready g att move_key mv tbl cd Hmv Htbl Hrem Hle).
  unfold getitem. rewrite Hflag. cbn.
  eexists. split; [reflexivity|]. unfold remaining, flag_of. cbn.
  rewrite !lookup_insert_eq. cbn. rewrite lookup_insert_eq.
  repeat split; auto.
  rewrite lookup_insert. case_decide; [done|auto].
Qed.

Lemma apply_move_against_active_defense_witness :
  exists g',
    apply_move Sample.sidestepped Cpu 1 = Ok (true, g', [BlockedOrDodged "A"])
    /\ active_defenses g'
       = <["A"%string := false]> (active_defenses Sample.sidestepped)
    /\ flag_of g' "A" = Some false
    /\ remaining g' "B" "Guard" = Some 0
    /\ player g' = player Sample.sidestepped
    /\ cpu g' = cpu Sample.sidestepped
    /\ (flag_of g' "B" = Some true ->
        flag_of Sample.sidestepped "B" = Some true).
Proof.
  apply (apply_move_against_active_defense Sample.sidestepped Cpu 1 Sample.guard 0);
    [reflexivity | vm_compute; reflexivity | lia | vm_compute; reflexivity].
Defined.

(** ** Inversion of a successful call *)

Lemma apply_move_inv g att move_key b g' out :
  apply_move g att move_key = Ok (b, g', out) ->
  exists mv tbl cd,
    player_moves (fighter att g) !! move_key = Some mv
    /\ cooldowns g !! name (fighter att g) = Some tbl
    /\ tbl !! move_name mv = Some cd
    /\ (cd > 0 <-> b = false)
    /\ Branch g att mv tbl b g' out.
Proof.
  intros Hrun.
  destruct (player_moves (fighter att g) !! move_key) as [mv|] eqn:Hmv;
    [|unfold apply_move, index in Hrun; rewrite Hmv in Hrun; done].
  destruct (cooldowns g !! name (fighter att g)) as [tbl|] eqn:Htbl;
    [|unfold apply_move, index, getitem in Hrun; rewrite Hmv in Hrun; cbn in Hrun;
      rewrite Htbl in Hrun; done].
  destruct (tbl !! move_name mv) as [cd|] eqn:Hcd;
    [|unfold apply_move, index, getitem in Hrun; rewrite Hmv in Hrun; cbn in Hrun;
      rewrite Htbl in Hrun; cbn in Hrun; rewrite Hcd in Hrun; done].
  exists mv, tbl, cd. do 3 (split; [done|]).
  destruct (decide (cd > 0)) as [Hpos|Hle].
  - rewrite (apply_move_refused g att move_key mv tbl cd Hmv Htbl Hcd Hpos) in Hrun.
    injection Hrun as <- <- <-. split; [done|constructor].
  - rewrite (apply_move_ready g att move_key mv tbl cd Hmv Htbl Hcd) in Hrun by lia.
    unfold getitem in Hrun.
    destruct (active_defenses g !! name (fighter (opponent att) g))
      as [[|]|] eqn:Hflag; cbn in Hrun; [| |done].
    + injection Hrun as <- <- <-. split; [split; [lia|done]|]. by constructor.
    + destruct (is_defensive (effect mv)) eqn:Heff.
      * injection Hrun as <- <- <-. split; [split; [lia|done]|]. by constructor.
      * destruct (damage mv) as [dmg|] eqn:Hdmg; cbn in Hrun; [|done].
        injection Hrun as <- <- <-. split; [split; [lia|done]|]. by constructor.
Qed.

(** ** Defense flags along a run *)

Lemma reduce_one_flags who g g' :
  reduce_one who g = Ok g' ->
  active_defenses g' = active_defenses g /\ player g' = player g /\ cpu g' = cpu g.
Proof.
  unfold reduce_one, getitem. destruct (cooldowns g !! who); cbn; [|done].
  by intros [= <-].
Qed.

Lemma reduce_cooldowns_flags g g' :
  reduce_cooldowns g = Ok g' ->
  active_defenses g' = active_defenses g /\ player g' = player g /\ cpu g' = cpu g.
Proof.
  unfold reduce_cooldowns.
  destruct (reduce_one (name (player g)) g) as [g1| |] eqn:H1; cbn; [|done..].
  intros H2. apply reduce_one_flags in H1 as (Hf1 & Hp1 & Hc1).
  apply reduce_one_flags in H2 as (Hf2 & Hp2 & Hc2).
  repeat split; congruence.
Qed.








(** The dodge consumed by the first attack does not stop the second one. *)
Example one_shot_scenario :
  let acts := [Execute Player 1; Elapse; Execute Cpu 0; Elapse;
               Execute Player 0; Elapse; Execute Cpu 0] in
  Sample.lines_after acts Sample.start
    = [UsedEffect "A" "Sidestep" "dodge next attack";
       BlockedOrDodged "A"; Dealt "A" "Punch" 5; Dealt "B" "Punch" 6]
  /\ health (player (Sample.game_after acts Sample.start)) = 14.
Proof. split; vm_compute; reflexivity. Qed.

(** ** The battle loop *)

Lemma bind_Ok {A B : Type} (m : result A) (f : A -> result B) (b : B) :
  m ≫= f = Ok b -> exists a, m = Ok a /\ f a = Ok b.
Proof. destruct m; cbn; [eauto|done..]. Qed.

Lemma apply_move_attacker g att move_key b g' out :
  apply_move g att move_key = Ok (b, g', out) ->
  fighter att g' = fighter att g.
Proof.
  intros Hrun. apply apply_move_inv in Hrun as (mv & tbl & cd & _ & _ & _ & _ & Hbr).
  destruct Hbr; destruct att; reflexivity.
Qed.

Lemma take_turn_inv g att io g1 io1 out :
  take_turn g att io = Ok (g1, io1, out) ->
  exists move_idx b out1 out2,
    apply_move g att move_idx = Ok (b, g1, out2) /\ out = out1 ++ out2.
Proof.
  unfold take_turn. intros H.
  apply bind_Ok in H as ([[idx io'] out1] & _ & H).
  apply bind_Ok in H as ([[b g'] out2] & Hmove & H).
  injection H as <- <- <-. by exists idx, b, out1, out2.
Qed.

Lemma take_turn_attacker g att io g1 io1 out :
  take_turn g att io = Ok (g1, io1, out) -> fighter att g1 = fighter att g.
Proof.
  intros H. apply take_turn_inv in H as (idx & b & out1 & out2 & H & _).
  by apply apply_move_attacker in H.
Qed.

(** One iteration of the loop, for the side whose turn it is. *)
Lemma play_loop_step fuel g io turn g' io' out :
  alive g = true ->
  play_loop (S fuel) g io turn = Ok (g', io', out) ->
  exists g1 io1 out1 g2 out3,
    take_turn g (if bool_decide (turn = 0) then Player else Cpu) io
      = Ok (g1, io1, out1)
    /\ reduce_cooldowns g1 = Ok g2
    /\ play_loop fuel g2 io1 (1 - turn) = Ok (g', io', out3)
    /\ out = [HealthOf (name (player g)) (health (player g));
              HealthOf (name (cpu g)) (health (cpu g))]
             ++ ((if bool_decide (turn = 0) then YourTurn else CpuTurn) :: out1)
             ++ out3.
Proof.
  intros Halive H. cbn [play_loop] in H. rewrite Halive in H.
  apply bind_Ok in H as ([[g1 io1] out1'] & Hturn & H).
  apply bind_Ok in H as (g2 & Hred & H).
  apply bind_Ok in H as ([[g3 io3] out3] & Hrec & H).
  injection H as <- <- <-.
  case_bool_decide.
  - apply bind_Ok in Hturn as ([[g1' io1'] o] & Hturn & Heq).
    injection Heq as <- <- <-. by exists g1', io1', o, g2, out3.
  - apply bind_Ok in Hturn as ([[g1' io1'] o] & Hturn & Heq).
    injection Heq as <- <- <-. by exists g1', io1', o, g2, out3.
Qed.

Lemma play_loop_over fuel g io turn :
  alive g = false -> play_loop fuel g io turn = Ok (g, io, []).
Proof. intros H. destruct fuel; cbn; rewrite H; done. Qed.

(** The loop only exits on a state where somebody's health is not positive. *)
Lemma play_loop_exit fuel : forall g io turn g' io' out,
  play_loop fuel g io turn = Ok (g', io', out) -> alive g' = false.
Proof.
  induction fuel as [|fuel IH]; intros g io turn g' io' out H.
  - cbn in H. destruct (alive g) eqn:Ha; [done|]. by injection H as <- <- <-.
  - destruct (alive g) eqn:Ha.
    + apply play_loop_step in H as (g1 & io1 & out1 & g2 & out3 & _ & _ & H & _);
        [|done]. by apply IH in H.
    + rewrite play_loop_over in H by done. by injection H as <- <- <-.
Qed.

(** When the loop starts with both fighters standing, it exits with
    exactly one of them down: the one who received the last move. *)
Lemma play_loop_decided fuel : forall g io turn g' io' out,
  alive g = true ->
  play_loop fuel g io turn = Ok (g', io', out) ->
  exists s, health (fighter s g') > 0 /\ health (fighter (opponent s) g') <= 0.
Proof.
  induction fuel as [|fuel IH]; intros g io turn g' io' out Ha H.
  - cbn in H. rewrite Ha in H. done.
  - apply play_loop_step in H
      as (g1 & io1 & out1 & g2 & out3 & Hturn & Hred & H & _); [|done].
    destruct (alive g2) eqn:Ha2; [by eapply IH|].
    rewrite play_loop_over in H by done. injection H as <- <- _.
    apply take_turn_attacker in Hturn.
    apply reduce_cooldowns_flags in Hred as (_ & Hp & Hc).
    unfold alive in Ha, Ha2.
    apply andb_true_iff in Ha as [Hpg Hcg].
    apply bool_decide_eq_true in Hpg, Hcg.
    apply andb_false_iff in Ha2.
    rewrite !bool_decide_eq_false in Ha2.
    rewrite Hp, Hc in Ha2.
    destruct (if bool_decide (turn = 0) then Player else Cpu) eqn:Hs;
      cbn in Hturn.
    + exists Player. cbn. rewrite Hp, Hc. rewrite Hturn in *. lia.
    + exists Cpu. cbn. rewrite Hp, Hc. rewrite Hturn in *. lia.
Qed.

Lemma reset_cooldowns_fighters g :
  player (reset_cooldowns g) = player g /\ cpu (reset_cooldowns g) = cpu g.
Proof. done. Qed.

Lemma play_chosen_inv fuel g io g' io' out :
  play_chosen fuel g io = Ok (g', io', out) ->
  exists out0,
    play_loop fuel (reset_cooldowns g) io 0 = Ok (g', io', out0)
    /\ out = out0 ++ [verdict g'].
Proof.
  unfold play_chosen. intros H.
  apply bind_Ok in H as ([[g1 io1] out0] & Hloop & H).
  injection H as <- <- <-. by exists out0.
Qed.

Lemma verdict_lost g :
  verdict g = YouLost <-> health (player g) < health (cpu g).
Proof.
  unfold verdict, Game_lt. case_bool_decide; split; intros; done.
Qed.

Lemma verdict_won g :
  verdict g = YouWon <-> health (cpu g) <= health (player g).
Proof.
  unfold verdict, Game_lt. case_bool_decide; split; intros; try done; lia.
Qed.

(** C5: once the loop has exited, the last line printed is the verdict, and
    the player is reported as the loser exactly when the player's final
    health is strictly below the CPU's.  When the battle started with both
    fighters standing, the fighter reported as the loser is the one whose
    health is at or below 0, however far below, and the other one is still
    standing. *)
Theorem lower_final_health_loses
    (fuel : nat) (g : Game) (io : Console)
    (g' : Game) (io' : Console) (out : list Line) :
  play_chosen fuel g io = Ok (g', io', out) ->
  last out = Some (verdict g')
  /\ (verdict g' = YouLost <-> health (player g') < health (cpu g'))
  /\ (verdict g' = YouWon <-> health (cpu g') <= health (player g'))
  /\ (alive g = true ->
      (verdict g' = YouLost -> health (player g') <= 0 < health (cpu g'))
      /\ (verdict g' = YouWon -> health (cpu g') <= 0 < health (player g'))).
Proof.
  intros H. apply play_chosen_inv in H as (out0 & Hloop & ->).
  split; [apply last_snoc|].
  split; [apply verdict_lost|]. split; [apply verdict_won|].
  intros Ha. apply play_loop_decided in Hloop as (s & Hup & Hdown); [|exact Ha].
  rewrite verdict_lost, verdict_won. destruct s; cbn in Hup, Hdown; lia.
Qed.

Lemma lower_final_health_loses_witness :
  health (cpu Sample.ko_game) = -2
  /\ last Sample.ko_out = Some (verdict Sample.ko_game)
  /\ (verdict Sample.ko_game = YouLost
      <-> health (player Sample.ko_game) < health (cpu Sample.ko_game))
  /\ (verdict Sample.ko_game = YouWon
      <-> health (cpu Sample.ko_game) <= health (player Sample.ko_game))
  /\ (alive Sample.chosen = true ->
      (verdict Sample.ko_game = YouLost
       -> health (player Sample.ko_game) <= 0 < health (cpu Sample.ko_game))
      /\ (verdict Sample.ko_game = YouWon
          -> health (cpu Sample.ko_game) <= 0 < health (player Sample.ko_game))).
Proof.
  split; [vm_compute; reflexivity|].
  apply (lower_final_health_loses 1 Sample.chosen Sample.ko_console
           Sample.ko_game {| stdin := []; entropy := [] |} Sample.ko_out).
  vm_compute. reflexivity.
Defined.

Example knockout_scenario :
  Sample.ko_out =
    [HealthOf "A" 20; HealthOf "B" 20; YourTurn; MovesOf "A";
     MoveLine 1 "Punch" 0; MoveLine 2 "Sidestep" 0; MoveLine 3 "Kick" 0;
     Dealt "A" "Kick" 22; YouWon].
Proof. vm_compute. reflexivity. Qed.

(** C10: when the two final healths are equal the strict comparison fails,
    so the player is reported as the winner: the verdict, which is the last
    line printed, is the winning one.  Such a tie only arises when the loop
    body never ran. *)
Theorem tie_reports_player_wins
    (fuel : nat) (g : Game) (io : Console)
    (g' : Game) (io' : Console) (out : list Line) :
  play_chosen fuel g io = Ok (g', io', out) ->
  health (player g') = health (cpu g') ->
  verdict g' = YouWon
  /\ last out = Some YouWon
  /\ Game_lt g' (cpu g') = false
  /\ alive g = false
  /\ out = [YouWon].
Proof.
  intros H Htie. apply play_chosen_inv in H as (out0 & Hloop & ->).
  assert (Hwon : verdict g' = YouWon) by (apply verdict_won; lia).
  rewrite Hwon. split; [done|]. split; [apply last_snoc|].
  split; [unfold Game_lt; apply bool_decide_eq_false; lia|].
  destruct (alive g) eqn:Ha.
  - apply play_loop_decided in Hloop as (s & Hup & Hdown); [|exact Ha].
    destruct s; cbn in Hup, Hdown; lia.
  - rewrite play_loop_over in Hloop by exact Ha.
    injection Hloop as <- <- <-. done.
Qed.

Lemma tie_reports_player_wins_witness :
  verdict (reset_cooldowns Sample.spent) = YouWon
  /\ last [YouWon] = Some YouWon
  /\ Game_lt (reset_cooldowns Sample.spent) (cpu (reset_cooldowns Sample.spent))
     = false
  /\ alive Sample.spent = false
  /\ [YouWon] = [YouWon].
Proof.
  apply (tie_reports_player_wins 0 Sample.spent Sample.silent
           (reset_cooldowns Sample.spent) Sample.silent [YouWon]);
    [vm_compute; reflexivity | reflexivity].
Defined.

(** ** The loop against the worded battle *)

Lemma turn_of_next k : 1 - turn_of k = turn_of (S k).
Proof.
  unfold turn_of. rewrite Nat.even_succ, <- Nat.negb_even.
  by destruct (Nat.even k).
Qed.

Lemma turn_of_side k :
  (if bool_decide (turn_of k = 0) then Player else Cpu) = side_of_turn k.
Proof. unfold turn_of, side_of_turn. by destruct (Nat.even k). Qed.

Lemma play_loop_sound fuel : forall k g io g' io' out,
  play_loop fuel g io (turn_of k) = Ok (g', io', out) ->
  exists n, (n <= fuel)%nat /\ Battle k g io g' io' n.
Proof.
  induction fuel as [|fuel IH]; intros k g io g' io' out H.
  - cbn in H. destruct (alive g) eqn:Ha; [done|]. injection H as <- <- _.
    exists 0%nat. split; [lia|by constructor].
  - destruct (alive g) eqn:Ha.
    + apply play_loop_step in H
        as (g1 & io1 & out1 & g2 & out3 & Hturn & Hred & H & _); [|done].
      rewrite turn_of_side in Hturn. rewrite turn_of_next in H.
      apply IH in H as (n & Hn & HB). exists (S n). split; [lia|].
      by eapply Battle_turn.
    + rewrite play_loop_over in H by done. injection H as <- <- _.
      exists 0%nat. split; [lia|by constructor].
Qed.

Lemma play_loop_complete k g io g' io' n :
  Battle k g io g' io' n ->
  forall fuel, (n <= fuel)%nat ->
  exists out, play_loop fuel g io (turn_of k) = Ok (g', io', out).
Proof.
  induction 1 as [k g io Ha|k g io g1 io1 out1 g2 g' io' n Ha Hturn Hred _ IH];
    intros fuel Hfuel.
  - exists []. by apply play_loop_over.
  - destruct fuel as [|fuel]; [lia|].
    destruct (IH fuel) as (out3 & Hrec); [lia|].
    cbn [play_loop]. rewrite Ha. rewrite <- turn_of_side in Hturn.
    rewrite <- turn_of_next in Hrec.
    destruct (bool_decide (turn_of k = 0)); rewrite Hturn; cbn;
      rewrite Hred; cbn; rewrite Hrec; cbn; eauto.
Qed.

Lemma Battle_ends k g io g' io' n :
  Battle k g io g' io' n -> alive g' = false.
Proof. induction 1; done. Qed.

(** A battle that is over after the player's first move. *)
Lemma knockout_battle :
  Battle 0 Sample.start Sample.ko_console Sample.ko_game Sample.silent 1.
Proof.
  eapply Battle_turn.
  - vm_compute. reflexivity.
  - vm_compute. reflexivity.
  - vm_compute. reflexivity.
  - apply Battle_over. vm_compute. reflexivity.
Qed.

Lemma knockout_loop :
  play_loop 1 Sample.start Sample.ko_console 0
  = Ok (Sample.ko_game, Sample.silent,
        [HealthOf "A" 20; HealthOf "B" 20; YourTurn; MovesOf "A";
         MoveLine 1 "Punch" 0; MoveLine 2 "Sidestep" 0; MoveLine 3 "Kick" 0;
         Dealt "A" "Kick" 22]).
Proof. vm_compute. reflexivity. Qed.

(** C6, as the code has it: the loop of [play] computes exactly the battle
    in which turns alternate strictly from the player on, each turn is
    [take_turn] followed by [reduce_cooldowns], and the loop stops at the
    first state where some health is at or below 0; that condition is
    evaluated before every single turn, so the battle may end after an odd
    number of turns, the player's half of a pair alone. *)
Theorem battle_loop_checks_before_every_turn
    (fuel : nat) (g : Game) (io : Console) (g' : Game) (io' : Console) :
  ((exists out, play_loop fuel g io 0 = Ok (g', io', out))
   <-> (exists n, (n <= fuel)%nat /\ Battle 0 g io g' io' n))
  /\ ((exists out, play_loop fuel g io 0 = Ok (g', io', out)) -> alive g' = false)
  /\ (exists h hio h' hio', Battle 0 h hio h' hio' 1).
Proof.
  split; [split|split].
  - intros (out & H). by apply (play_loop_sound fuel 0) in H.
  - intros (n & Hn & HB). by apply (play_loop_complete 0 g io g' io' n).
  - intros (out & H). by apply play_loop_exit in H.
  - eexists _, _, _, _. apply knockout_battle.
Qed.

(** C6 as claimed fails: were the condition checked only between full pairs
    of turns, every battle would end after an even number of turns. *)
Lemma loop_exits_after_player_half :
  ~ (forall fuel g io g' io' out n,
       play_loop fuel g io 0 = Ok (g', io', out) ->
       Battle 0 g io g' io' n ->
       Nat.Even n).
Proof.
  intros Hclaim.
  destruct (Hclaim _ _ _ _ _ _ _ knockout_loop knockout_battle) as [m Hm].
  lia.
Qed.

(** ** Cooldown entries *)

Lemma zero_table_entries moves : forall (acc : gmap string Z) move cd,
  (forall m c, acc !! m = Some c -> c = 0) ->
  foldl (fun tbl mv => <[move_name mv := 0]> tbl) acc moves !! move = Some cd ->
  cd = 0.
Proof.
  induction moves as [|mv moves IH]; intros acc move cd Hacc H; cbn in H.
  - by eapply Hacc.
  - eapply IH; [|exact H]. intros m c. rewrite lookup_insert.
    case_decide; [congruence|apply Hacc].
Qed.

Lemma zero_table_zero moves move cd :
  zero_table moves !! move = Some cd -> cd = 0.
Proof. apply zero_table_entries. intros m c. by rewrite lookup_empty. Qed.

Lemma reset_cooldowns_zero g s move cd :
  remaining (reset_cooldowns g) (name (fighter s g)) move = Some cd -> cd = 0.
Proof.
  unfold remaining, reset_cooldowns, reset_one. cbn.
  rewrite lookup_insert. case_decide; cbn; [apply zero_table_zero|].
  rewrite lookup_insert. case_decide; cbn; [apply zero_table_zero|].
  destruct s; cbn in *; congruence.
Qed.

Lemma tick_cases cd :
  (cd > 0 -> tick cd = cd - 1) /\ (cd <= 0 -> tick cd = cd)
  /\ (0 <= cd -> 0 <= tick cd).
Proof. unfold tick. case_bool_decide; lia. Qed.

Lemma reduce_one_entry who g g' :
  reduce_one who g = Ok g' ->
  forall w m cd', remaining g' w m = Some cd' ->
  exists cd, remaining g w m = Some cd /\ (cd' = cd \/ cd' = tick cd).
Proof.
  unfold reduce_one, getitem. destruct (cooldowns g !! who) as [tbl|] eqn:Htbl;
    cbn; [|done].
  intros [= <-] w m cd'. unfold remaining. cbn.
  rewrite lookup_insert. case_decide as Hw; cbn.
  - subst w. rewrite Htbl. cbn. rewrite lookup_fmap.
    destruct (tbl !! m) as [cd|]; cbn; [|done]. intros [= <-]. eauto.
  - intros H. destruct (cooldowns g !! w) as [t|]; cbn in *; [|done].
    rewrite H. eauto.
Qed.

Lemma reduce_cooldowns_entry g g' :
  reduce_cooldowns g = Ok g' ->
  forall w m cd', remaining g' w m = Some cd' ->
  exists cd, remaining g w m = Some cd /\ (cd' = cd \/ 0 <= cd' < cd).
Proof.
  unfold reduce_cooldowns. intros H.
  apply bind_Ok in H as (g1 & H1 & H2). intros w m cd' Hrem.
  destruct (reduce_one_entry _ _ _ H2 _ _ _ Hrem) as (c1 & Hc1 & Hd1).
  destruct (reduce_one_entry _ _ _ H1 _ _ _ Hc1) as (c0 & Hc0 & Hd0).
  exists c0. split; [done|].
  pose proof (tick_cases c0). pose proof (tick_cases c1).
  destruct (decide (c0 > 0)), (decide (c1 > 0)); lia.
Qed.

Lemma apply_move_fighters g att move_key b g' out :
  apply_move g att move_key = Ok (b, g', out) ->
  forall s, name (fighter s g') = name (fighter s g)
            /\ player_moves (fighter s g') = player_moves (fighter s g).
Proof.
  intros Hrun. apply apply_move_inv in Hrun as (mv & tbl & cd & _ & _ & _ & _ & Hbr).
  intros s. destruct Hbr; destruct att, s; done.
Qed.

Lemma apply_move_tables g att move_key b g' out :
  apply_move g att move_key = Ok (b, g', out) ->
  configured_nonneg (fighter att g) ->
  tables_nonneg g -> tables_nonneg g'.
Proof.
  intros Hrun Hconf Hinv.
  pose proof (apply_move_fighters _ _ _ _ _ _ Hrun) as Hsame.
  apply apply_move_inv in Hrun as (mv & tbl & cd & Hmv & Htbl & Hcd & _ & Hbr).
  assert (Hv : 0 <= default 0 (cooldown mv)).
  { unfold configured_nonneg in Hconf. rewrite Forall_lookup in Hconf.
    by apply (Hconf move_key). }
  assert (Hstore : forall h,
            cooldowns h = <[name (fighter att g) :=
                              <[move_name mv := default 0 (cooldown mv)]> tbl]>
                            (cooldowns g) ->
            forall w m c, remaining h w m = Some c ->
              c = default 0 (cooldown mv) \/ remaining g w m = Some c).
  { intros h Hh w m c. unfold remaining. rewrite Hh, lookup_insert.
    case_decide as Hw; cbn.
    - subst w. rewrite Htbl. cbn. rewrite lookup_insert.
      case_decide; [intros [= <-]; by left|by right].
    - by right. }
  intros s move c Hrem. destruct (Hsame s) as [Hname _]. rewrite Hname in Hrem.
  destruct Hbr.
  - by eapply Hinv.
  - apply Hstore in Hrem as [->|Hrem]; [done| by eapply Hinv | done].
  - apply Hstore in Hrem as [->|Hrem]; [done| by eapply Hinv | done].
  - apply Hstore in Hrem as [->|Hrem]; [done| by eapply Hinv |].
    by destruct att.
Qed.

Lemma zero_table_covers moves : forall (acc : gmap string Z) move,
  (acc !! move = Some 0 \/ exists mv, mv ∈ moves /\ move_name mv = move) ->
  foldl (fun tbl mv => <[move_name mv := 0]> tbl) acc moves !! move = Some 0.
Proof.
  induction moves as [|mv moves IH]; intros acc move H; cbn.
  - destruct H as [H|(mv & Hin & _)]; [done|]. by apply elem_of_nil in Hin.
  - apply IH. destruct H as [H|(mv' & Hin & Hname)].
    + left. rewrite lookup_insert. by case_decide.
    + apply elem_of_cons in Hin as [->|Hin].
      * left. rewrite Hname. apply lookup_insert_eq.
      * right. eauto.
Qed.

Lemma reset_cooldowns_covers g s mv :
  mv ∈ player_moves (fighter s g) ->
  s = Cpu \/ name (player g) <> name (cpu g) ->
  remaining (reset_cooldowns g) (name (fighter s g)) (move_name mv) = Some 0.
Proof.
  intros Hin Hs. unfold remaining, reset_cooldowns, reset_one. cbn.
  rewrite lookup_insert. case_decide as Hc; cbn.
  - destruct s; cbn in *.
    + destruct Hs; [done|congruence].
    + apply zero_table_covers. right. eauto.
  - destruct s; cbn in *; [|done].
    rewrite lookup_insert_eq. cbn. apply zero_table_covers. right. eauto.
Qed.

Lemma reduce_cooldowns_tables g g' :
  reduce_cooldowns g = Ok g' -> tables_nonneg g -> tables_nonneg g'.
Proof.
  intros Hred Hinv s move cd' Hrem.
  pose proof (reduce_cooldowns_flags _ _ Hred) as (_ & Hp & Hc).
  replace (name (fighter s g')) with (name (fighter s g)) in Hrem
    by (destruct s; cbn; congruence).
  destruct (reduce_cooldowns_entry _ _ Hred _ _ _ Hrem) as (cd & Hcd & Hd).
  apply Hinv in Hcd. lia.
Qed.

Lemma run_tables acts : forall g g' out,
  run acts g = Ok (g', out) ->
  configured_nonneg (player g) -> configured_nonneg (cpu g) ->
  tables_nonneg g -> tables_nonneg g'.
Proof.
  induction acts as [|[att move_key|] rest IH]; intros g g' out Hrun Hp Hc Hinv;
    cbn in Hrun.
  - by injection Hrun as <- <-.
  - apply bind_Ok in Hrun as ([[b g1] out1] & H1 & Hrun).
    apply bind_Ok in Hrun as ([g2 out2] & H2 & Hrun).
    injection Hrun as <- <-.
    pose proof (apply_move_fighters _ _ _ _ _ _ H1) as Hsame.
    destruct (Hsame Player) as [_ HmP], (Hsame Cpu) as [_ HmC]. cbn in HmP, HmC.
    eapply IH; [exact H2| | |].
    + unfold configured_nonneg. by rewrite HmP.
    + unfold configured_nonneg. by rewrite HmC.
    + eapply apply_move_tables; [exact H1| |exact Hinv]. by destruct att.
  - apply bind_Ok in Hrun as (g1 & H1 & Hrun).
    pose proof (reduce_cooldowns_flags _ _ H1) as (_ & Hp1 & Hc1).
    eapply IH; [exact Hrun| | |].
    + unfold configured_nonneg. by rewrite Hp1.
    + unfold configured_nonneg. by rewrite Hc1.
    + by eapply reduce_cooldowns_tables.
Qed.

Lemma Battle_run k g io g' io' n :
  Battle k g io g' io' n -> exists acts out, run acts g = Ok (g', out).
Proof.
  induction 1 as [k g io Ha|k g io g1 io1 out1 g2 g' io' n Ha Hturn Hred _ IH].
  - by exists [], [].
  - destruct IH as (acts & out & Hrun).
    apply take_turn_inv in Hturn as (idx & b & o1 & o2 & Hmove & _).
    exists (Execute (side_of_turn k) idx :: Elapse :: acts), (o2 ++ out).
    cbn. rewrite Hmove. cbn. rewrite Hred. cbn. rewrite Hrun. done.
Qed.

(** Along a whole battle, when the data configures no negative cooldown. *)
Lemma play_chosen_tables fuel g io g' io' out :
  configured_nonneg (player g) -> configured_nonneg (cpu g) ->
  play_chosen fuel g io = Ok (g', io', out) -> tables_nonneg g'.
Proof.
  intros Hp Hc H. apply play_chosen_inv in H as (out0 & Hloop & _).
  apply (play_loop_sound fuel 0) in Hloop as (n & _ & HB).
  apply Battle_run in HB as (acts & o & Hrun).
  eapply run_tables; [exact Hrun|exact Hp|exact Hc|].
  intros s move cd Hrem. by apply (reset_cooldowns_zero g s) in Hrem as ->.
Qed.

(** C8, as the code has it: [reset_cooldowns] sets every entry of both
    fighters to 0 and gives every move an entry; [reduce_cooldowns] leaves an
    entry alone or lowers it to a value that is still at least 0, and its
    loop body takes 1 off an entry only when the entry is positive; and when
    no move configures a negative cooldown, no sequence of moves and
    reductions after the reset leaves a negative entry.  ([apply_move]
    stores the configured cooldown as it is.) *)
Theorem cooldowns_never_negative
    (g : Game) (acts : list Action) (g' : Game) (out : list Line) :
  configured_nonneg (player g) ->
  configured_nonneg (cpu g) ->
  run acts (reset_cooldowns g) = Ok (g', out) ->
  (forall s move cd,
      remaining (reset_cooldowns g) (name (fighter s g)) move = Some cd -> cd = 0)
  /\ (forall s mv,
        mv ∈ player_moves (fighter s g) ->
        s = Cpu \/ name (player g) <> name (cpu g) ->
        remaining (reset_cooldowns g) (name (fighter s g)) (move_name mv) = Some 0)
  /\ (forall cd, (cd > 0 -> tick cd = cd - 1) /\ (cd <= 0 -> tick cd = cd))
  /\ (forall h h', reduce_cooldowns h = Ok h' ->
        forall who move cd', remaining h' who move = Some cd' ->
        exists cd, remaining h who move = Some cd /\ (cd' = cd \/ 0 <= cd' < cd))
  /\ tables_nonneg g'.
Proof.
  intros Hp Hc Hrun.
  split; [apply reset_cooldowns_zero|].
  split; [apply reset_cooldowns_covers|].
  split; [intros cd; pose proof (tick_cases cd); tauto|].
  split; [apply reduce_cooldowns_entry|].
  eapply run_tables; [exact Hrun|exact Hp|exact Hc|].
  intros s move cd Hrem. by apply (reset_cooldowns_zero g s) in Hrem as ->.
Qed.

Lemma cooldowns_never_negative_witness :
  (forall s move cd,
      remaining (reset_cooldowns Sample.chosen)
        (name (fighter s Sample.chosen)) move = Some cd -> cd = 0)
  /\ (forall s mv,
        mv ∈ player_moves (fighter s Sample.chosen) ->
        s = Cpu \/ name (player Sample.chosen) <> name (cpu Sample.chosen) ->
        remaining (reset_cooldowns Sample.chosen)
          (name (fighter s Sample.chosen)) (move_name mv) = Some 0)
  /\ (forall cd, (cd > 0 -> tick cd = cd - 1) /\ (cd <= 0 -> tick cd = cd))
  /\ (forall h h', reduce_cooldowns h = Ok h' ->
        forall who move cd', remaining h' who move = Some cd' ->
        exists cd, remaining h who move = Some cd /\ (cd' = cd \/ 0 <= cd' < cd))
  /\ tables_nonneg Sample.skirmish_game.
Proof.
  apply (cooldowns_never_negative Sample.chosen Sample.skirmish
           Sample.skirmish_game Sample.skirmish_out).
  - repeat constructor; cbn; lia.
  - repeat constructor; cbn; lia.
  - vm_compute. reflexivity.
Defined.

Example skirmish_scenario :
  Sample.skirmish_out =
    [UsedEffect "A" "Sidestep" "dodge next attack"; BlockedOrDodged "A";
     Dealt "A" "Punch" 5; UsedEffect "B" "Guard" "blocks next attack"]
  /\ remaining Sample.skirmish_game "A" "Sidestep" = Some 0
  /\ remaining Sample.skirmish_game "B" "Guard" = Some 0.
Proof. repeat split; vm_compute; reflexivity. Qed.

(** C8 as claimed fails: [apply_move] stores the configured cooldown of the
    move as it is, so a roster that configures -1 gets the entry -1. *)
Lemma negative_configured_cooldown_is_stored :
  run [Execute Player 0] (reset_cooldowns Sample.hasty)
    = Ok (Sample.lunged, [Dealt "A" "Lunge" 1])
  /\ remaining Sample.lunged "A" "Lunge" = Some (-1)
  /\ ~ (forall g acts g' out,
          run acts (reset_cooldowns g) = Ok (g', out) -> tables_nonneg g').
Proof.
  assert (Hrun : run [Execute Player 0] (reset_cooldowns Sample.hasty)
                 = Ok (Sample.lunged, [Dealt "A" "Lunge" 1]))
    by (vm_compute; reflexivity).
  assert (Hrem : remaining Sample.lunged (name (fighter Player Sample.lunged))
                   "Lunge" = Some (-1))
    by (vm_compute; reflexivity).
  split; [exact Hrun|]. split; [vm_compute; reflexivity|].
  intros Hclaim. apply Hclaim in Hrun. apply Hrun in Hrem. lia.
Qed.

(** ** A dodge followed by the opponent's attack *)

Lemma remaining_Some g who move cd :
  remaining g who move = Some cd <->
  exists tbl, cooldowns g !! who = Some tbl /\ tbl !! move = Some cd.
Proof.
  unfold remaining. destruct (cooldowns g !! who) as [tbl|]; cbn.
  - split; [eauto|]. by intros (? & [= <-] & ?).
  - split; [done|]. by intros (? & ? & _).
Qed.

(** With two distinct names, one [reduce_cooldowns] is one [tick] on every
    entry of both fighters. *)
Lemma reduce_cooldowns_distinct g tp tc :
  name (player g) <> name (cpu g) ->
  cooldowns g !! name (player g) = Some tp ->
  cooldowns g !! name (cpu g) = Some tc ->
  exists g',
    reduce_cooldowns g = Ok g'
    /\ player g' = player g /\ cpu g' = cpu g
    /\ active_defenses g' = active_defenses g
    /\ forall s move,
         remaining g' (name (fighter s g)) move
         = tick <$> remaining g (name (fighter s g)) move.
Proof.
  intros Hne Hp Hc. unfold reduce_cooldowns, reduce_one, getitem.
  rewrite Hp. cbn. rewrite lookup_insert_ne, Hc by done. cbn.
  eexists. split; [reflexivity|]. do 3 (split; [reflexivity|]).
  intros s move. unfold remaining. cbn. destruct s; cbn.
  - rewrite lookup_insert_ne, lookup_insert_eq, Hp by done. cbn.
    by rewrite lookup_fmap.
  - rewrite lookup_insert_eq, Hc. cbn. by rewrite lookup_fmap.
Qed.

Lemma remaining_store g h who mn v tbl :
  cooldowns g !! who = Some tbl ->
  cooldowns h = <[who := <[mn := v]> tbl]> (cooldowns g) ->
  forall w m,
    remaining h w m = if decide (w = who /\ m = mn) then Some v else remaining g w m.
Proof.
  intros Htbl Hh w m. unfold remaining. rewrite Hh, lookup_insert.
  destruct (decide (who = w)) as [<-|Hw]; cbn.
  - rewrite Htbl. cbn. rewrite lookup_insert.
    destruct (decide (mn = m)) as [<-|Hm].
    + by rewrite decide_True.
    + rewrite decide_False; [done|]. intros [_ ?]. congruence.
  - rewrite decide_False; [done|]. intros [? _]. congruence.
Qed.

Lemma step_activated g att move_key mv cd :
  player_moves (fighter att g) !! move_key = Some mv ->
  remaining g (name (fighter att g)) (move_name mv) = Some cd ->
  cd <= 0 ->
  flag_of g (name (fighter (opponent att) g)) = Some false ->
  is_defensive (effect mv) = true ->
  exists g1,
    apply_move g att move_key =
      Ok (true, g1, [UsedEffect (name (fighter att g)) (move_name mv)
                       (default ""%string (effect mv))])
    /\ player g1 = player g /\ cpu g1 = cpu g
    /\ active_defenses g1 = <[name (fighter att g) := true]> (active_defenses g)
    /\ forall w m,
         remaining g1 w m =
           if decide (w = name (fighter att g) /\ m = move_name mv)
           then Some (default 0 (cooldown mv)) else remaining g w m.
Proof.
  intros Hmv Hrem Hle Hflag Heff.
  apply remaining_Some in Hrem as (tbl & Htbl & Hcd). unfold flag_of in Hflag.
  rewrite (apply_move_ready g att move_key mv tbl cd Hmv Htbl Hcd Hle).
  unfold getitem. rewrite Hflag. cbn. rewrite Heff.
  eexists. split; [reflexivity|]. do 3 (split; [reflexivity|]).
  by eapply remaining_store.
Qed.

Lemma step_nullified g att move_key mv cd :
  player_moves (fighter att g) !! move_key = Some mv ->
  remaining g (name (fighter att g)) (move_name mv) = Some cd ->
  cd <= 0 ->
  flag_of g (name (fighter (opponent att) g)) = Some true ->
  exists g1,
    apply_move g att move_key =
      Ok (true, g1, [BlockedOrDodged (name (fighter (opponent att) g))])
    /\ player g1 = player g /\ cpu g1 = cpu g
    /\ active_defenses g1
       = <[name (fighter (opponent att) g) := false]> (active_defenses g)
    /\ forall w m,
         remaining g1 w m =
           if decide (w = name (fighter att g) /\ m = move_name mv)
           then Some (default 0 (cooldown mv)) else remaining g w m.
Proof.
  intros Hmv Hrem Hle Hflag.
  apply remaining_Some in Hrem as (tbl & Htbl & Hcd). unfold flag_of in Hflag.
  rewrite (apply_move_ready g att move_key mv tbl cd Hmv Htbl Hcd Hle).
  unfold getitem. rewrite Hflag. cbn.
  eexists. split; [reflexivity|]. do 3 (split; [reflexivity|]).
  by eapply remaining_store.
Qed.

Lemma fighter_same g h s :
  player h = player g -> cpu h = cpu g -> fighter s h = fighter s g.
Proof. intros Hp Hc. by destruct s. Qed.

Lemma opponent_name_ne g att :
  name (player g) <> name (cpu g) ->
  name (fighter (opponent att) g) <> name (fighter att g).
Proof. intros Hne. destruct att; cbn; congruence. Qed.

(** C7, as the code has it: the two fighters bear different names; one of
    them executes, off cooldown and while the opponent has no block or dodge
    pending, a "dodge next attack" move that configures cooldown 2; the turn
    ends with [reduce_cooldowns], and the opponent then executes a move that
    is off cooldown.  The attack is nullified, the dodger's health is
    unchanged and the defense flag is cleared; the dodge's remaining
    cooldown is 2 right after the dodge and 1 when the attack resolves, one
    reduction having passed in between; the attacking move's own cooldown
    is set to its configured value.  (Against an opponent whose own block or
    dodge is pending, the dodge itself is the move that gets nullified.) *)
Theorem dodge_then_attack
    (g : Game) (att : Side) (i j : nat) (mv mv' : Move) (cd cd' : Z) :
  name (player g) <> name (cpu g) ->
  player_moves (fighter att g) !! i = Some mv ->
  effect mv = Some "dodge next attack"%string ->
  cooldown mv = Some 2 ->
  remaining g (name (fighter att g)) (move_name mv) = Some cd ->
  cd <= 0 ->
  flag_of g (name (fighter (opponent att) g)) = Some false ->
  player_moves (fighter (opponent att) g) !! j = Some mv' ->
  remaining g (name (fighter (opponent att) g)) (move_name mv') = Some cd' ->
  cd' <= 1 ->
  let dodger := name (fighter att g) in
  exists g1 g2 g3,
    apply_move g att i =
      Ok (true, g1, [UsedEffect dodger (move_name mv) "dodge next attack"])
    /\ flag_of g1 dodger = Some true
    /\ remaining g1 dodger (move_name mv) = Some 2
    /\ reduce_cooldowns g1 = Ok g2
    /\ remaining g2 dodger (move_name mv) = Some 1
    /\ apply_move g2 (opponent att) j = Ok (true, g3, [BlockedOrDodged dodger])
    /\ health (fighter att g3) = health (fighter att g)
    /\ flag_of g3 dodger = Some false
    /\ remaining g3 dodger (move_name mv) = Some 1
    /\ remaining g3 (name (fighter (opponent att) g)) (move_name mv')
       = Some (default 0 (cooldown mv')).
Proof.
  intros Hne Hmv Heff Hcool Hrem Hle Hflag Hmv' Hrem' Hle' dodger.
  pose proof (opponent_name_ne g att Hne) as Hne'.
  (* the dodge *)
  destruct (step_activated g att i mv cd Hmv Hrem Hle Hflag)
    as (g1 & H1 & Hp1 & Hc1 & Hf1 & Hr1); [by rewrite Heff|].
  rewrite Heff, Hcool in *. cbn in H1, Hr1.
  exists g1.
  assert (Hd1 : remaining g1 dodger (move_name mv) = Some 2).
  { rewrite Hr1. by rewrite decide_True. }
  assert (Ho1 : remaining g1 (name (fighter (opponent att) g)) (move_name mv')
                = Some cd').
  { rewrite Hr1. rewrite decide_False; [done|]. intros [? _]. done. }
  (* the end of the dodger's turn *)
  assert (Hsame1 : forall s, fighter s g1 = fighter s g)
    by (intros s; by apply fighter_same).
  assert (exists tp tc, cooldowns g1 !! name (player g1) = Some tp
                        /\ cooldowns g1 !! name (cpu g1) = Some tc)
    as (tp & tc & Htp & Htc).
  { apply remaining_Some in Hd1 as (t1 & Ht1 & _).
    apply remaining_Some in Ho1 as (t2 & Ht2 & _).
    rewrite Hp1, Hc1. subst dodger. destruct att; cbn in *; eauto. }
  destruct (reduce_cooldowns_distinct g1 tp tc)
    as (g2 & H2 & Hp2 & Hc2 & Hf2 & Hr2); [by rewrite Hp1, Hc1|done..|].
  exists g2.
  assert (Hsame2 : forall s, fighter s g2 = fighter s g).
  { intros s. rewrite <- Hsame1. by apply fighter_same. }
  assert (Hd2 : remaining g2 dodger (move_name mv) = Some 1).
  { subst dodger. rewrite <- (Hsame1 att), Hr2, (Hsame1 att), Hd1. done. }
  assert (Ho2 : remaining g2 (name (fighter (opponent att) g)) (move_name mv')
                = Some (tick cd')).
  { rewrite <- (Hsame1 (opponent att)), Hr2, (Hsame1 (opponent att)), Ho1. done. }
  (* the opponent's move *)
  destruct (step_nullified g2 (opponent att) j mv' (tick cd'))
    as (g3 & H3 & Hp3 & Hc3 & Hf3 & Hr3).
  { by rewrite Hsame2. }
  { by rewrite Hsame2. }
  { unfold tick. case_bool_decide; lia. }
  { replace (opponent (opponent att)) with att by (by destruct att).
    rewrite Hsame2. unfold flag_of. rewrite Hf2, Hf1. apply lookup_insert_eq. }
  replace (opponent (opponent att)) with att in * by (by destruct att).
  rewrite !Hsame2 in *.
  exists g3. split; [exact H1|].
  split; [unfold flag_of; rewrite Hf1; apply lookup_insert_eq|].
  do 4 (split; [done|]).
  split; [by rewrite (fighter_same g2 g3 att Hp3 Hc3), Hsame2|].
  split; [unfold flag_of; rewrite Hf3; apply lookup_insert_eq|].
  split.
  - rewrite Hr3. rewrite decide_False; [done|]. intros [? _]. done.
  - rewrite Hr3. by rewrite decide_True.
Qed.

Lemma dodge_then_attack_witness :
  exists g1 g2 g3,
    apply_move Sample.start Player 1 =
      Ok (true, g1, [UsedEffect "A" "Sidestep" "dodge next attack"])
    /\ flag_of g1 "A" = Some true
    /\ remaining g1 "A" "Sidestep" = Some 2
    /\ reduce_cooldowns g1 = Ok g2
    /\ remaining g2 "A" "Sidestep" = Some 1
    /\ apply_move g2 Cpu 0 = Ok (true, g3, [BlockedOrDodged "A"])
    /\ health (player g3) = health (player Sample.start)
    /\ flag_of g3 "A" = Some false
    /\ remaining g3 "A" "Sidestep" = Some 1
    /\ remaining g3 "B" "Punch" = Some 0.
Proof.
  apply (dodge_then_attack Sample.start Player 1 0 Sample.sidestep Sample.punch 0 0);
    [discriminate | reflexivity | reflexivity | reflexivity
    | vm_compute; reflexivity | lia | vm_compute; reflexivity | reflexivity
    | vm_compute; reflexivity | lia].
Defined.

(** C7 as claimed fails: the human types 2 (the dodge), the turn ends, the
    CPU draws its punch; when the punch is nullified the dodge has 1 turn of
    cooldown left, not 2. *)
Lemma dodge_cooldown_is_one_when_attacked :
  take_turn Sample.start Player Sample.dodge_console
    = Ok (Sample.dodged, Sample.drawn,
          [MovesOf "A"; MoveLine 1 "Punch" 0; MoveLine 2 "Sidestep" 0;
           MoveLine 3 "Kick" 0;
           UsedEffect "A" "Sidestep" "dodge next attack"])
  /\ remaining Sample.dodged "A" "Sidestep" = Some 2
  /\ reduce_cooldowns Sample.dodged = Ok Sample.dodged_ticked
  /\ take_turn Sample.dodged_ticked Cpu Sample.drawn
      = Ok (Sample.punched, Sample.silent, [BlockedOrDodged "A"])
  /\ health (player Sample.punched) = 20
  /\ flag_of Sample.punched "A" = Some false
  /\ remaining Sample.punched "A" "Sidestep" = Some 1
  /\ remaining Sample.punched "A" "Sidestep" <> Some 2.
Proof.
  do 7 (split; [vm_compute; reflexivity|]).
  intros H. vm_compute in H. discriminate H.
Qed.

(** ** The CPU's choice of a move *)

Lemma random_choice_range n d rest :
  (0 < n)%nat ->
  random_choice (seq 0 n) (d :: rest) = Ok ((d mod n)%nat, rest).
Proof.
  intros Hn. unfold random_choice.
  destruct (seq 0 n) as [|x l] eqn:Hl.
  - destruct n; [lia|done].
  - rewrite <- Hl, length_seq. unfold index.
    rewrite lookup_seq_lt by (apply Nat.mod_upper_bound; lia). done.
Qed.

Lemma selects_below n k d :
  (d < n)%nat -> selects n k d = Nat.eqb d k.
Proof.
  intros Hd. unfold selects. rewrite random_choice_range by lia.
  by rewrite Nat.mod_small.
Qed.

Lemma filter_eqb_seq k n : forall a,
  length (List.filter (fun d => Nat.eqb d k) (seq a n))
  = if bool_decide (a <= k < a + n)%nat then 1%nat else 0%nat.
Proof.
  induction n as [|n IH]; intros a; cbn.
  - rewrite bool_decide_eq_false_2 by lia. done.
  - destruct (Nat.eqb_spec a k) as [->|Hne]; cbn; rewrite IH.
    + rewrite bool_decide_eq_false_2 by lia.
      rewrite bool_decide_eq_true_2 by lia. done.
    + repeat case_bool_decide; lia.
Qed.

Lemma selects_once n k :
  (k < n)%nat -> length (List.filter (selects n k) (seq 0 n)) = 1%nat.
Proof.
  intros Hk.
  rewrite (List.filter_ext_in (selects n k) (fun d => Nat.eqb d k)).
  - rewrite filter_eqb_seq. rewrite bool_decide_eq_true_2 by lia. done.
  - intros d Hd. apply List.in_seq in Hd. apply selects_below. lia.
Qed.

Lemma take_turn_cpu g typed d rest :
  cpu g <> player g ->
  (0 < length (player_moves (cpu g)))%nat ->
  take_turn g Cpu {| stdin := typed; entropy := d :: rest |}
  = ('(_, g1, out) ← apply_move g Cpu (d mod length (player_moves (cpu g)))%nat;
     Ok (g1, {| stdin := typed; entropy := rest |}, out)).
Proof.
  intros Hne Hn. unfold take_turn. cbn [fighter entropy stdin].
  rewrite bool_decide_eq_false_2 by done.
  rewrite random_choice_range by done. cbn.
  destruct (apply_move g Cpu _) as [[[b g1] out]| |]; done.
Qed.

(** C9: on the CPU's turn [random.choice] is given the whole range of move
    indices; the cooldown table plays no part in the selection.  Every index
    can be drawn, each of the equally likely draws selects a different
    index, and the drawn index goes to [apply_move] as it is.  When the
    drawn move is on cooldown the call is refused and the game is unchanged:
    the loop then reduces the cooldowns and hands the turn to the player. *)
Theorem cpu_selects_among_all_moves
    (g : Game) (typed : list (option Z)) (idx : nat) (rest : list nat) (mv : Move) :
  cpu g <> player g ->
  player_moves (cpu g) !! idx = Some mv ->
  let n := length (player_moves (cpu g)) in
  let io := {| stdin := typed; entropy := idx :: rest |} in
  let io' := {| stdin := typed; entropy := rest |} in
  random_choice (seq 0 n) (idx :: rest) = Ok (idx, rest)
  /\ (forall d, random_choice (seq 0 n) (d :: rest) = Ok ((d mod n)%nat, rest))
  /\ (forall k, (k < n)%nat ->
        length (List.filter (selects n k) (seq 0 n)) = 1%nat)
  /\ take_turn g Cpu io
     = ('(_, g1, out) ← apply_move g Cpu idx; Ok (g1, io', out))
  /\ (forall cd,
        remaining g (name (cpu g)) (move_name mv) = Some cd -> cd > 0 ->
        take_turn g Cpu io = Ok (g, io', [OnCooldown (move_name mv)])
        /\ forall fuel, alive g = true ->
             play_loop (S fuel) g io 1
             = (g2 ← reduce_cooldowns g;
                '(g3, io3, out3) ← play_loop fuel g2 io' 0;
                Ok (g3, io3,
                    [HealthOf (name (player g)) (health (player g));
                     HealthOf (name (cpu g)) (health (cpu g));
                     CpuTurn; OnCooldown (move_name mv)] ++ out3))).
Proof.
  intros Hne Hmv n io io'.
  assert (Hidx : (idx < n)%nat) by (by eapply lookup_lt_Some).
  assert (Hturn : take_turn g Cpu io
                  = ('(_, g1, out) ← apply_move g Cpu idx; Ok (g1, io', out))).
  { unfold io. rewrite take_turn_cpu by (done || lia).
    fold n. by rewrite Nat.mod_small. }
  split; [rewrite random_choice_range by lia; by rewrite Nat.mod_small|].
  split; [intros d; apply random_choice_range; lia|].
  split; [apply selects_once|].
  split; [exact Hturn|].
  intros cd Hrem Hpos.
  apply remaining_Some in Hrem as (tbl & Htbl & Hcd).
  assert (Hrefused : take_turn g Cpu io = Ok (g, io', [OnCooldown (move_name mv)])).
  { rewrite Hturn.
    by rewrite (apply_move_refused g Cpu idx mv tbl cd Hmv Htbl Hcd Hpos). }
  split; [exact Hrefused|].
  intros fuel Ha. cbn [play_loop]. rewrite Ha.
  rewrite bool_decide_eq_false_2 by done. rewrite Hrefused. cbn.
  change (1 - 1) with 0. reflexivity.
Qed.

Lemma cpu_selects_among_all_moves_witness :
  let g := Sample.slammed in
  let n := 3%nat in
  let io := {| stdin := []; entropy := [2%nat] |} in
  let io' := {| stdin := []; entropy := [] |} in
  remaining g "B" "Slam" = Some 1
  /\ random_choice (seq 0 n) [2%nat] = Ok (2%nat, [])
  /\ (forall d, random_choice (seq 0 n) [d] = Ok ((d mod n)%nat, []))
  /\ (forall k, (k < n)%nat ->
        length (List.filter (selects n k) (seq 0 n)) = 1%nat)
  /\ take_turn g Cpu io
     = ('(_, g1, out) ← apply_move g Cpu 2; Ok (g1, io', out))
  /\ (forall cd,
        remaining g "B" "Slam" = Some cd -> cd > 0 ->
        take_turn g Cpu io = Ok (g, io', [OnCooldown "Slam"])
        /\ forall fuel, alive g = true ->
             play_loop (S fuel) g io 1
             = (g2 ← reduce_cooldowns g;
                '(g3, io3, out3) ← play_loop fuel g2 io' 0;
                Ok (g3, io3,
                    [HealthOf "A" (health (player g));
                     HealthOf "B" (health (cpu g));
                     CpuTurn; OnCooldown "Slam"] ++ out3))).
Proof.
  split; [vm_compute; reflexivity|].
  apply (cpu_selects_among_all_moves Sample.slammed [] 2 [] Sample.slam);
    [discriminate | vm_compute; reflexivity].
Defined.

(** * Further properties of the engine *)

(** ** The prompt loop *)

Lemma rejected_test n z :
  bool_decide (0 <= z - 1) && bool_decide (z - 1 < Z.of_nat n) = false
  <-> rejected n (Some z).
Proof.
  cbn. rewrite andb_false_iff, !bool_decide_eq_false. lia.
Qed.

Lemma prompt_index_inv n bad typed : forall i rest out,
  prompt_index n bad typed = Ok (i, rest, out) ->
  exists skipped,
    typed = skipped ++ Some (Z.of_nat i + 1) :: rest
    /\ Forall (rejected n) skipped
    /\ (i < n)%nat
    /\ out = complaint bad <$> skipped.
Proof.
  induction typed as [|[z|] typed IH]; intros i rest out H; cbn in H.
  - done.
  - destruct (bool_decide (0 <= z - 1) && bool_decide (z - 1 < Z.of_nat n))
      eqn:Hz.
    + injection H as <- <- <-. exists [].
      apply andb_true_iff in Hz as [H0 H1].
      apply bool_decide_eq_true in H0, H1.
      repeat split; [|constructor|lia]. cbn. do 2 f_equal. lia.
    + apply bind_Ok in H as ([[i' r'] o'] & Hrec & H).
      injection H as <- <- <-.
      destruct (IH _ _ _ Hrec) as (sk & -> & Hsk & Hi & ->).
      exists (Some z :: sk). repeat split; [|done].
      constructor; [by apply rejected_test|done].
  - apply bind_Ok in H as ([[i' r'] o'] & Hrec & H).
    injection H as <- <- <-.
    destruct (IH _ _ _ Hrec) as (sk & -> & Hsk & Hi & ->).
    exists (None :: sk). repeat split; [|done]. by constructor.
Qed.

Lemma prompt_index_intro n bad skipped i rest :
  Forall (rejected n) skipped ->
  (i < n)%nat ->
  prompt_index n bad (skipped ++ Some (Z.of_nat i + 1) :: rest)
  = Ok (i, rest, complaint bad <$> skipped).
Proof.
  intros Hsk Hi. induction Hsk as [|[z|] sk Hz Hsk IH]; cbn.
  - rewrite !bool_decide_eq_true_2 by lia. cbn. do 3 f_equal. lia.
  - apply rejected_test in Hz. rewrite Hz, IH. done.
  - rewrite IH. done.
Qed.

(** X1: the prompt loop of [choose_character] and [take_turn] returns [i]
    exactly when the typed lines start with lines that are all turned down
    (not a number, or a number outside 1..n), followed by the number [i + 1]
    with [i < n]; it consumes the lines up to that number and prints one
    complaint per line turned down, in order. *)
Theorem prompt_index_first_valid
    (n : nat) (bad : Line) (typed : list (option Z))
    (i : nat) (rest : list (option Z)) (out : list Line) :
  prompt_index n bad typed = Ok (i, rest, out)
  <-> exists skipped,
        typed = skipped ++ Some (Z.of_nat i + 1) :: rest
        /\ Forall (rejected n) skipped
        /\ (i < n)%nat
        /\ out = complaint bad <$> skipped.
Proof.
  split; [apply prompt_index_inv|].
  intros (sk & -> & Hsk & Hi & ->). by apply prompt_index_intro.
Qed.

(** X2: the prompt loop never gives up on its own: it raises only at end of
    input, with [EOFError], and it does so exactly when every typed line is
    one it turns down. *)
Theorem prompt_index_end_of_input
    (n : nat) (bad : Line) (typed : list (option Z)) :
  (prompt_index n bad typed = Raise EOFError <-> Forall (rejected n) typed)
  /\ prompt_index n bad typed <> OutOfFuel
  /\ prompt_index n bad typed <> Raise KeyError
  /\ prompt_index n bad typed <> Raise IndexError.
Proof.
  assert (Hshape : forall typed,
             (exists r, prompt_index n bad typed = Ok r /\ ~ Forall (rejected n) typed)
             \/ (prompt_index n bad typed = Raise EOFError
                 /\ Forall (rejected n) typed)).
  { clear typed. induction typed as [|[z|] typed IH]; cbn.
    - right. split; [done|constructor].
    - destruct (bool_decide (0 <= z - 1) && bool_decide (z - 1 < Z.of_nat n))
        eqn:Hz.
      + left. eexists. split; [done|]. intros HF. inversion HF as [|? ? Hr _]; subst.
        apply rejected_test in Hr. congruence.
      + apply rejected_test in Hz.
        destruct IH as [([[i r] o] & -> & Hn)|[-> HF]]; cbn.
        * left. eexists. split; [done|]. intros HF. inversion HF; subst. done.
        * right. split; [done|by constructor].
    - destruct IH as [([[i r] o] & -> & Hn)|[-> HF]]; cbn.
      + left. eexists. split; [done|]. intros HF. inversion HF; subst. done.
      + right. split; [done|by constructor]. }
  destruct (Hshape typed) as [(r & -> & Hn)|[-> HF]]; repeat split; try done.
Qed.

Lemma prompt_index_bound n bad typed : forall i rest out,
  prompt_index n bad typed = Ok (i, rest, out) -> (i < n)%nat.
Proof.
  induction typed as [|[z|] typed IH]; intros i rest out H; cbn in H.
  - done.
  - destruct (bool_decide (0 <= z - 1) && bool_decide (z - 1 < Z.of_nat n))
      eqn:Hz.
    + injection H as <- _ _. apply andb_true_iff in Hz as [H0 H1].
      apply bool_decide_eq_true in H0, H1. lia.
    + apply bind_Ok in H as ([[i' r'] o'] & Hrec & H).
      injection H as <- _ _. by eapply IH.
  - apply bind_Ok in H as ([[i' r'] o'] & Hrec & H).
    injection H as <- _ _. by eapply IH.
Qed.

Lemma prompt_index_shape n bad typed :
  (exists r, prompt_index n bad typed = Ok r)
  \/ prompt_index n bad typed = Raise EOFError.
Proof.
  induction typed as [|[z|] typed IH]; cbn.
  - by right.
  - destruct (bool_decide (0 <= z - 1) && bool_decide (z - 1 < Z.of_nat n)).
    + left. by eexists.
    + destruct IH as [([[i r] o] & ->)| ->]; cbn; [left; by eexists|by right].
  - destruct IH as [([[i r] o] & ->)| ->]; cbn; [left; by eexists|by right].
Qed.

Lemma random_choice_inv {A : Type} (l : list A) draws x rest :
  random_choice l draws = Ok (x, rest) ->
  exists d k, draws = d :: rest /\ l !! k = Some x.
Proof.
  unfold random_choice. destruct l as [|y l]; [done|].
  destruct draws as [|d draws]; [done|].
  unfold index. destruct ((y :: l) !! _) as [z|] eqn:Hk; cbn; [|done].
  intros [= <- <-]. eauto.
Qed.

(** ** choose_character *)

(** X3: when [choose_character] succeeds, the player's fighter and the
    CPU's fighter sit at two different positions of the roster (so the
    roster holds at least two characters), and both dictionaries of the game
    are still empty. *)
Theorem choose_character_two_positions
    (characters : list Character) (io : Console)
    (g : Game) (io' : Console) (out : list Line) :
  choose_character characters io = Ok (g, io', out) ->
  exists i j,
    i <> j
    /\ characters !! i = Some (player g)
    /\ characters !! j = Some (cpu g)
    /\ (2 <= length characters)%nat
    /\ cooldowns g = ∅
    /\ active_defenses g = ∅.
Proof.
  unfold choose_character. intros H.
  apply bind_Ok in H as ([[choice rest] o] & Hprompt & H).
  apply bind_Ok in H as (p & Hp & H).
  apply bind_Ok in H as ([c draws] & Hc & H).
  injection H as <- <- <-. cbn.
  unfold index in Hp. destruct (characters !! choice) as [p'|] eqn:Hi; [|done].
  injection Hp as ->.
  apply random_choice_inv in Hc as (d & k & _ & Hk).
  destruct (decide (k < choice)%nat) as [Hlt|Hge].
  - rewrite list_lookup_delete_lt in Hk by done.
    exists choice, k. repeat split; try done; [lia|].
    apply lookup_lt_Some in Hi. lia.
  - rewrite list_lookup_delete_ge in Hk by lia.
    exists choice, (S k). repeat split; try done; [lia|].
    apply lookup_lt_Some in Hk. lia.
Qed.

Lemma prompt_index_cases n bad typed :
  (exists r, prompt_index n bad typed = Ok r /\ ~ Forall (rejected n) typed)
  \/ (prompt_index n bad typed = Raise EOFError /\ Forall (rejected n) typed).
Proof.
  induction typed as [|[z|] typed IH]; cbn.
  - right. split; [done|constructor].
  - destruct (bool_decide (0 <= z - 1) && bool_decide (z - 1 < Z.of_nat n))
      eqn:Hz.
    + left. eexists. split; [done|].
      intros HF. inversion HF as [|? ? Hr _]; subst.
      apply rejected_test in Hr. congruence.
    + apply rejected_test in Hz.
      destruct IH as [([[i r] o] & -> & Hn)|[-> HF]]; cbn.
      * left. eexists. split; [done|]. intros HF. inversion HF; subst. done.
      * right. split; [done|by constructor].
  - destruct IH as [([[i r] o] & -> & Hn)|[-> HF]]; cbn.
    + left. eexists. split; [done|]. intros HF. inversion HF; subst. done.
    + right. split; [done|by constructor].
Qed.

(** X4: a roster of fewer than two characters cannot start a battle:
    [choose_character] always raises.  It raises [EOFError] exactly when
    every typed line is turned down, and [IndexError], from [random.choice]
    on the empty list of opponents, exactly when some typed line is
    accepted, which takes a roster of one character and the number 1; an
    empty roster therefore always ends in [EOFError]. *)
Theorem choose_character_needs_two
    (characters : list Character) (io : Console) :
  (length characters < 2)%nat ->
  (choose_character characters io = Raise EOFError
   <-> Forall (rejected (length characters)) (stdin io))
  /\ (choose_character characters io = Raise IndexError
      <-> ~ Forall (rejected (length characters)) (stdin io))
  /\ (choose_character characters io = Raise IndexError
      <-> length characters = 1%nat
          /\ exists skipped rest,
               stdin io = skipped ++ Some 1 :: rest
               /\ Forall (rejected 1) skipped)
  /\ (characters = [] -> choose_character characters io = Raise EOFError).
Proof.
  intros Hlen. unfold choose_character.
  destruct (prompt_index_cases (length characters) InvalidChoice (stdin io))
    as [([[i rest] o] & Hp & Hnot)|[Hp HF]]; rewrite Hp; cbn.
  - pose proof (prompt_index_bound _ _ _ _ _ _ Hp) as Hi.
    apply prompt_index_inv in Hp as (sk & Hstdin & Hsk & _ & _).
    destruct characters as [|c [|c' cs]]; cbn in *; [lia| |lia].
    assert (i = 0%nat) as -> by lia. cbn.
    split; [split; [done|intros HF; by apply Hnot in HF]|].
    split; [split; [by intros _|done]|].
    split; [|done].
    split; [|done]. intros _. split; [done|]. by exists sk, rest.
  - split; [split; [by intros _|done]|].
    split; [split; [done|intros Hnot; by apply Hnot in HF]|].
    split; [|done].
    split; [done|].
    intros (Hone & sk & rest & Hstdin & Hsk). exfalso.
    rewrite Hstdin, Hone in HF. apply Forall_app in HF as [_ HF].
    inversion HF as [|? ? Hr _]; subst. cbn in Hr. lia.
Qed.

(** ** show_moves *)

Lemma getitem_remaining {B : Type} g who move (k : Z -> result B) :
  (tbl ← getitem (cooldowns g) who; cd ← getitem tbl move; k cd)
  = match remaining g who move with
    | Some cd => k cd
    | None => Raise KeyError
    end.
Proof.
  unfold remaining, getitem. destruct (cooldowns g !! who) as [tbl|]; cbn; [|done].
  by destruct (tbl !! move).
Qed.

Lemma show_moves_from_Ok g who moves : forall idx out,
  show_moves_from g who idx moves = Ok out ->
  length out = length moves
  /\ forall i mv, moves !! i = Some mv ->
       exists cd, remaining g who (move_name mv) = Some cd
                  /\ out !! i = Some (MoveLine (S (idx + i)) (move_name mv) cd).
Proof.
  induction moves as [|mv0 moves IH]; intros idx out H; cbn [show_moves_from] in H.
  - injection H as <-. split; [done|]. intros i mv Hi. done.
  - rewrite getitem_remaining in H.
    destruct (remaining g who (move_name mv0)) as [cd0|] eqn:Hcd0; [|done].
    apply bind_Ok in H as (out' & Hrec & H). injection H as <-.
    destruct (IH _ _ Hrec) as (Hlen & Hall). split; [cbn; lia|].
    intros [|i] mv Hi; cbn in Hi.
    + injection Hi as <-. exists cd0. rewrite Nat.add_0_r. done.
    + destruct (Hall i mv Hi) as (cd & Hcd & Hout). exists cd. split; [done|].
      replace (idx + S i)%nat with (S idx + i)%nat by lia. exact Hout.
Qed.

Lemma show_moves_from_shape g who moves : forall idx,
  (exists out, show_moves_from g who idx moves = Ok out
               /\ forall mv, mv ∈ moves -> remaining g who (move_name mv) <> None)
  \/ (show_moves_from g who idx moves = Raise KeyError
      /\ exists mv, mv ∈ moves /\ remaining g who (move_name mv) = None).
Proof.
  induction moves as [|mv0 moves IH]; intros idx; cbn [show_moves_from].
  - left. eexists. split; [done|]. intros mv Hin. by apply elem_of_nil in Hin.
  - rewrite getitem_remaining.
    destruct (remaining g who (move_name mv0)) as [cd0|] eqn:Hcd0.
    + destruct (IH (S idx)) as [(out & -> & Hall)|(-> & mv & Hin & Hnone)]; cbn.
      * left. eexists. split; [done|]. intros mv Hin.
        apply elem_of_cons in Hin as [->|Hin]; [congruence|by apply Hall].
      * right. split; [done|]. exists mv. split; [by right|done].
    + right. split; [done|]. exists mv0. split; [by left|done].
Qed.

(** X5: when [show_moves] succeeds it prints the header and then one line
    per move, in order and numbered from 1, carrying the move's name and its
    remaining cooldown as stored in the table. *)
Theorem show_moves_lists_cooldowns (g : Game) (c : Character) (out : list Line) :
  show_moves g c = Ok out ->
  exists lines,
    out = MovesOf (name c) :: lines
    /\ length lines = length (player_moves c)
    /\ forall i mv, player_moves c !! i = Some mv ->
         exists cd, remaining g (name c) (move_name mv) = Some cd
                    /\ lines !! i = Some (MoveLine (S i) (move_name mv) cd).
Proof.
  unfold show_moves. intros H. apply bind_Ok in H as (lines & Hfrom & H).
  injection H as <-. exists lines. split; [done|].
  by apply show_moves_from_Ok in Hfrom.
Qed.

(** X6: [show_moves] fails only with [KeyError], and exactly when some move
    of the character has no entry in the cooldown table kept under the
    character's name. *)
Theorem show_moves_key_error (g : Game) (c : Character) :
  (show_moves g c = Raise KeyError
   <-> exists mv, mv ∈ player_moves c
                  /\ remaining g (name c) (move_name mv) = None)
  /\ ((exists out, show_moves g c = Ok out) \/ show_moves g c = Raise KeyError).
Proof.
  unfold show_moves.
  destruct (show_moves_from_shape g (name c) (player_moves c) 0)
    as [(out & -> & Hall)|(-> & mv & Hin & Hnone)]; cbn.
  - split; [|left; by eexists]. split; [done|].
    intros (mv & Hin & Hnone). by apply Hall in Hin.
  - split; [|by right]. split; [|done]. intros _. by exists mv.
Qed.

(** ** Names as keys *)

Lemma zero_table_misses moves : forall (acc : gmap string Z) move,
  acc !! move = None ->
  (forall mv, mv ∈ moves -> move_name mv <> move) ->
  foldl (fun tbl mv => <[move_name mv := 0]> tbl) acc moves !! move = None.
Proof.
  induction moves as [|mv0 moves IH]; intros acc move Hacc Hne; cbn; [done|].
  apply IH.
  - rewrite lookup_insert_ne; [done|]. apply Hne. by left.
  - intros mv Hin. apply Hne. by right.
Qed.

Lemma reset_cooldowns_shared g move :
  name (player g) = name (cpu g) ->
  remaining (reset_cooldowns g) (name (player g)) move
  = zero_table (player_moves (cpu g)) !! move.
Proof.
  intros Hsame. unfold remaining, reset_cooldowns, reset_one. cbn.
  rewrite Hsame, lookup_insert_eq. done.
Qed.

(** X7: the cooldown tables are keyed by the fighter's name, and
    [reset_cooldowns] writes the CPU's table last.  When the two fighters
    bear the same name, a move of the player whose name no move of the CPU
    has is left without an entry: executing it raises [KeyError], so does
    [show_moves] for the player, and a battle that starts with both fighters
    standing stops with [KeyError] on the player's first turn. *)
Theorem shared_name_breaks_the_battle
    (g : Game) (fuel : nat) (io : Console) (k : nat) (mv : Move) :
  name (player g) = name (cpu g) ->
  player_moves (player g) !! k = Some mv ->
  (forall mv', mv' ∈ player_moves (cpu g) -> move_name mv' <> move_name mv) ->
  apply_move (reset_cooldowns g) Player k = Raise KeyError
  /\ show_moves (reset_cooldowns g) (player g) = Raise KeyError
  /\ (alive g = true -> play_chosen (S fuel) g io = Raise KeyError).
Proof.
  intros Hsame Hmv Hne.
  assert (Hnone : remaining (reset_cooldowns g) (name (player g)) (move_name mv)
                  = None).
  { rewrite reset_cooldowns_shared by done.
    apply zero_table_misses; [apply lookup_empty|done]. }
  assert (Hshow : show_moves (reset_cooldowns g) (player g) = Raise KeyError).
  { unfold show_moves.
    destruct (show_moves_from_shape (reset_cooldowns g) (name (player g))
                (player_moves (player g)) 0)
      as [(out & _ & Hall)|(-> & _)]; [|done].
    exfalso. apply (Hall mv); [|done]. by eapply list_elem_of_lookup_2. }
  split; [|split; [exact Hshow|]].
  - assert (Hp : player (reset_cooldowns g) = player g) by done.
    clear Hshow. remember (reset_cooldowns g) as h eqn:Hh. clear Hh.
    unfold apply_move, index, getitem. cbn [fighter]. rewrite Hp, Hmv. cbn.
    unfold remaining in Hnone.
    destruct (cooldowns h !! name (player g)) as [tbl|]; cbn in *; [|done].
    by rewrite Hnone.
  - intros Ha. unfold play_chosen. cbn [play_loop].
    change (alive (reset_cooldowns g)) with (alive g). rewrite Ha.
    rewrite bool_decide_eq_true_2 by done.
    unfold take_turn. cbn [fighter].
    rewrite bool_decide_eq_true_2 by done.
    change (player (reset_cooldowns g)) with (player g). rewrite Hshow. done.
Qed.

(** X8: with two different names, [reset_cooldowns] leaves every move of
    either fighter ready: [show_moves] succeeds for both and lists each move
    with cooldown 0. *)
Theorem show_moves_after_reset (g : Game) (s : Side) :
  name (player g) <> name (cpu g) ->
  show_moves (reset_cooldowns g) (fighter s g) = Ok (ready_lines (fighter s g)).
Proof.
  intros Hne. unfold show_moves, ready_lines.
  destruct (show_moves_from_shape (reset_cooldowns g) (name (fighter s g))
              (player_moves (fighter s g)) 0)
    as [(out & Hout & _)|(_ & mv & Hin & Hnone)].
  - rewrite Hout. cbn. do 2 f_equal.
    apply show_moves_from_Ok in Hout as (Hlen & Hall).
    apply list_eq. intros i. rewrite list_lookup_imap.
    destruct (player_moves (fighter s g) !! i) as [mv|] eqn:Hi; cbn.
    + destruct (Hall i mv Hi) as (cd & Hcd & ->).
      by apply reset_cooldowns_zero in Hcd as ->.
    + apply lookup_ge_None. apply lookup_ge_None in Hi. lia.
  - rewrite reset_cooldowns_covers in Hnone; [done|done|by right].
Qed.

(** ** How a move can fail *)

Lemma apply_move_no_move g att move_key :
  player_moves (fighter att g) !! move_key = None ->
  apply_move g att move_key = Raise IndexError.
Proof. intros H. unfold apply_move, index. by rewrite H. Qed.

Lemma apply_move_no_entry g att move_key mv :
  player_moves (fighter att g) !! move_key = Some mv ->
  remaining g (name (fighter att g)) (move_name mv) = None ->
  apply_move g att move_key = Raise KeyError.
Proof.
  intros Hmv Hnone. unfold apply_move, index, getitem. rewrite Hmv. cbn.
  unfold remaining in Hnone.
  destruct (cooldowns g !! name (fighter att g)) as [tbl|]; cbn in *; [|done].
  by rewrite Hnone.
Qed.

(** X9: the ways [apply_move] fails.  It raises [IndexError] exactly when
    the index is past the attacker's last move.  It raises [KeyError]
    exactly when the move has no cooldown entry, or is off cooldown and
    either the defender has no defense flag, or the flag is down and the
    move is a plain attack without a "damage" key.  It fails in no other
    way; in particular a block or dodge move needs no "damage" key. *)
Theorem apply_move_failures (g : Game) (att : Side) (move_key : nat) :
  (apply_move g att move_key = Raise IndexError
   <-> (length (player_moves (fighter att g)) <= move_key)%nat)
  /\ (apply_move g att move_key = Raise KeyError
      <-> exists mv,
            player_moves (fighter att g) !! move_key = Some mv
            /\ (remaining g (name (fighter att g)) (move_name mv) = None
                \/ exists cd,
                     remaining g (name (fighter att g)) (move_name mv) = Some cd
                     /\ cd <= 0
                     /\ (flag_of g (name (fighter (opponent att) g)) = None
                         \/ (flag_of g (name (fighter (opponent att) g)) = Some false
                             /\ is_defensive (effect mv) = false
                             /\ damage mv = None))))
  /\ apply_move g att move_key <> Raise EOFError
  /\ apply_move g att move_key <> OutOfFuel.
Proof.
  destruct (player_moves (fighter att g) !! move_key) as [mv|] eqn:Hmv.
  2: { rewrite (apply_move_no_move _ _ _ Hmv).
       apply lookup_ge_None in Hmv. repeat split; try done.
       intros (mv & ? & _). done. }
  pose proof (lookup_lt_Some _ _ _ Hmv) as Hlt.
  destruct (remaining g (name (fighter att g)) (move_name mv)) as [cd|] eqn:Hrem.
  2: { rewrite (apply_move_no_entry _ _ _ _ Hmv Hrem).
       repeat split; try done; try lia. intros _. exists mv. split; [done|by left]. }
  pose proof Hrem as Hrem'.
  apply remaining_Some in Hrem' as (tbl & Htbl & Hcd).
  destruct (decide (cd > 0)) as [Hpos|Hle].
  { rewrite (apply_move_refused g att move_key mv tbl cd Hmv Htbl Hcd Hpos).
    repeat split; try done; try lia.
    intros (mv' & [= <-] & [Hn|(cd' & Hs & Hle & _)]); [congruence|].
    assert (cd' = cd) by congruence. lia. }
  rewrite (apply_move_ready g att move_key mv tbl cd Hmv Htbl Hcd) by lia.
  unfold getitem, flag_of.
  destruct (active_defenses g !! name (fighter (opponent att) g))
    as [[|]|] eqn:Hflag; cbn.
  - repeat split; try done; try lia.
    intros (mv' & [= <-] & [Hn|(cd' & _ & _ & [Hf|(Hf & _)])]); congruence.
  - destruct (is_defensive (effect mv)) eqn:Heff.
    + repeat split; try done; try lia.
      intros (mv' & [= <-] & [Hn|(cd' & _ & _ & [Hf|(_ & He & _)])]); congruence.
    + destruct (damage mv) as [dmg|] eqn:Hdmg; cbn.
      * repeat split; try done; try lia.
        intros (mv' & [= <-] & [Hn|(cd' & _ & _ & [Hf|(_ & _ & Hd)])]); congruence.
      * repeat split; try done; try lia.
        intros _. exists mv. split; [done|]. right. exists cd.
        repeat split; [done|lia|]. by right.
  - repeat split; try done; try lia.
    intros _. exists mv. split; [done|]. right. exists cd.
    repeat split; [done|lia|]. by left.
Qed.

(** ** What a battle keeps *)

Lemma apply_move_static g att move_key b g' out :
  apply_move g att move_key = Ok (b, g', out) ->
  forall s,
    health (fighter s g') <= health (fighter s g)
    /\ name (fighter s g') = name (fighter s g)
    /\ defense (fighter s g') = defense (fighter s g)
    /\ player_moves (fighter s g') = player_moves (fighter s g).
Proof.
  intros Hrun. apply apply_move_inv in Hrun as (mv & tbl & cd & _ & _ & _ & _ & Hbr).
  intros s. destruct Hbr; destruct att, s; cbn; repeat split; lia.
Qed.

Lemma run_static acts : forall g g' out,
  run acts g = Ok (g', out) ->
  forall s,
    health (fighter s g') <= health (fighter s g)
    /\ name (fighter s g') = name (fighter s g)
    /\ defense (fighter s g') = defense (fighter s g)
    /\ player_moves (fighter s g') = player_moves (fighter s g).
Proof.
  induction acts as [|[att move_key|] rest IH]; intros g g' out Hrun s;
    cbn in Hrun.
  - injection Hrun as <- _. repeat split; lia.
  - apply bind_Ok in Hrun as ([[b g1] out1] & H1 & Hrun).
    apply bind_Ok in Hrun as ([g2 out2] & H2 & Hrun).
    injection Hrun as <- _.
    destruct (apply_move_static _ _ _ _ _ _ H1 s) as (Hh & Hn & Hd & Hm).
    destruct (IH _ _ _ H2 s) as (Hh' & Hn' & Hd' & Hm').
    repeat split; [lia|congruence..].
  - apply bind_Ok in Hrun as (g1 & H1 & Hrun).
    apply reduce_cooldowns_flags in H1 as (_ & Hp & Hc).
    destruct (IH _ _ _ Hrun s) as (Hh' & Hn' & Hd' & Hm').
    rewrite (fighter_same g g1 s Hp Hc) in *. done.
Qed.

(** X10: nothing in a battle heals or renames: at the end of [play] each
    fighter's health is at most what it was at the start, and the names, the
    defenses and the move lists are the ones the fighters came with. *)
Theorem battle_never_heals
    (fuel : nat) (g : Game) (io : Console)
    (g' : Game) (io' : Console) (out : list Line) (s : Side) :
  play_chosen fuel g io = Ok (g', io', out) ->
  health (fighter s g') <= health (fighter s g)
  /\ name (fighter s g') = name (fighter s g)
  /\ defense (fighter s g') = defense (fighter s g)
  /\ player_moves (fighter s g') = player_moves (fighter s g).
Proof.
  intros H. apply play_chosen_inv in H as (out0 & Hloop & _).
  apply (play_loop_sound fuel 0) in Hloop as (n & _ & HB).
  apply Battle_run in HB as (acts & o & Hrun).
  apply (run_static _ _ _ _ Hrun s).
Qed.

(** X11: what the value returned by [apply_move] tells.  It is [True]
    exactly when the move was off cooldown, and then, whichever of the
    three branches ran, the move's remaining cooldown is the configured one
    (0 when the move configures none); it is [False] exactly when the move
    was on cooldown, and then nothing changed and the only line printed is
    the cooldown notice. *)
Theorem apply_move_return_value
    (g : Game) (att : Side) (move_key : nat) (mv : Move)
    (b : bool) (g' : Game) (out : list Line) :
  apply_move g att move_key = Ok (b, g', out) ->
  player_moves (fighter att g) !! move_key = Some mv ->
  exists cd,
    remaining g (name (fighter att g)) (move_name mv) = Some cd
    /\ (b = true <-> cd <= 0)
    /\ (b = true ->
        remaining g' (name (fighter att g)) (move_name mv)
        = Some (default 0 (cooldown mv)))
    /\ (b = false -> g' = g /\ out = [OnCooldown (move_name mv)]).
Proof.
  intros Hrun Hmv.
  apply apply_move_inv in Hrun as (mv' & tbl & cd & Hmv' & Htbl & Hcd & Hb & Hbr).
  assert (mv' = mv) as -> by congruence.
  exists cd. split; [apply remaining_Some; eauto|].
  split.
  { destruct b; split; intros H; try done.
    - destruct (decide (cd > 0)) as [Hp|]; [apply Hb in Hp; done|lia].
    - assert (cd > 0) by (by apply Hb). lia. }
  split.
  - intros ->.
    assert (Hstore : cooldowns g'
                     = <[name (fighter att g) :=
                           <[move_name mv := default 0 (cooldown mv)]> tbl]>
                         (cooldowns g)).
    { inversion Hbr; subst; try done; by destruct att. }
    rewrite (remaining_store g g' _ _ _ _ Htbl Hstore). by rewrite decide_True.
  - intros ->. inversion Hbr; subst. done.
Qed.

(** ** The two defense flags *)

Lemma apply_move_exclusive g att move_key b g' out :
  name (player g) <> name (cpu g) ->
  apply_move g att move_key = Ok (b, g', out) ->
  ~ (flag_of g (name (player g)) = Some true
     /\ flag_of g (name (cpu g)) = Some true) ->
  ~ (flag_of g' (name (player g)) = Some true
     /\ flag_of g' (name (cpu g)) = Some true).
Proof.
  intros Hne Hrun Hinv.
  apply apply_move_inv in Hrun as (mv & tbl & cd & _ & _ & _ & _ & Hbr).
  unfold flag_of in *.
  destruct Hbr as [|Hflag|Hflag Heff|dmg Hflag Heff Hdmg]; cbn.
  - done.
  - intros [Hp Hc]. destruct att; cbn in *.
    + rewrite lookup_insert_eq in Hc. done.
    + rewrite lookup_insert_eq in Hp. done.
  - intros [Hp Hc]. destruct att; cbn in *.
    + rewrite lookup_insert_ne in Hc by done. unfold flag_of in Hflag.
      congruence.
    + rewrite lookup_insert_ne in Hp by done. unfold flag_of in Hflag.
      congruence.
  - by destruct att.
Qed.

Lemma run_exclusive acts : forall g g' out,
  name (player g) <> name (cpu g) ->
  run acts g = Ok (g', out) ->
  ~ (flag_of g (name (player g)) = Some true
     /\ flag_of g (name (cpu g)) = Some true) ->
  ~ (flag_of g' (name (player g)) = Some true
     /\ flag_of g' (name (cpu g)) = Some true).
Proof.
  induction acts as [|[att move_key|] rest IH]; intros g g' out Hne Hrun Hinv;
    cbn in Hrun.
  - by injection Hrun as <- _.
  - apply bind_Ok in Hrun as ([[b g1] out1] & H1 & Hrun).
    apply bind_Ok in Hrun as ([g2 out2] & H2 & Hrun).
    injection Hrun as <- _.
    pose proof (apply_move_fighters _ _ _ _ _ _ H1) as Hsame.
    destruct (Hsame Player) as [HnP _], (Hsame Cpu) as [HnC _]. cbn in HnP, HnC.
    rewrite <- HnP, <- HnC. apply (IH g1 g2 out2); [congruence|done|].
    rewrite HnP, HnC. by eapply apply_move_exclusive.
  - apply bind_Ok in Hrun as (g1 & H1 & Hrun).
    apply reduce_cooldowns_flags in H1 as (Hf & Hp & Hc).
    rewrite <- Hp, <- Hc. apply (IH g1 g' out); [congruence|done|].
    unfold flag_of in *. by rewrite Hf, Hp, Hc.
Qed.

(** X12: when the fighters bear different names, the two defense flags are
    never set at the same time: after [reset_cooldowns], whatever moves are
    executed and however often the cooldowns are reduced, at most one
    fighter has a block or dodge pending. *)
Theorem defense_flags_never_both_set
    (g : Game) (acts : list Action) (g' : Game) (out : list Line) :
  name (player g) <> name (cpu g) ->
  run acts (reset_cooldowns g) = Ok (g', out) ->
  ~ (flag_of g' (name (player g)) = Some true
     /\ flag_of g' (name (cpu g)) = Some true).
Proof.
  intros Hne Hrun.
  apply (run_exclusive acts (reset_cooldowns g) g' out Hne Hrun).
  unfold flag_of, reset_cooldowns, reset_one. cbn.
  intros [_ Hc]. rewrite lookup_insert_eq in Hc. done.
Qed.

(** ** Battles that cannot end, and who ends the others *)





Lemma Battle_last k g io g' io' n :
  Battle k g io g' io' n ->
  alive g = true ->
  (0 < n)%nat
  /\ health (fighter (side_of_turn (k + n - 1)) g') > 0
  /\ health (fighter (opponent (side_of_turn (k + n - 1))) g') <= 0.
Proof.
  induction 1 as [k g io Hover|k g io g1 io1 out1 g2 g' io' n Ha Hturn Hred HB IH];
    intros Halive; [congruence|].
  destruct (alive g2) eqn:Ha2.
  - destruct (IH eq_refl) as (Hn & Hup & Hdown).
    replace (k + S n - 1)%nat with (S k + n - 1)%nat by lia.
    split; [lia|done].
  - inversion HB; subst; [|congruence].
    replace (k + 1 - 1)%nat with k by lia. split; [lia|].
    apply take_turn_attacker in Hturn.
    apply reduce_cooldowns_flags in Hred as (_ & Hp & Hc).
    unfold alive in Ha, Ha2.
    apply andb_true_iff in Ha as [Hpg Hcg].
    apply bool_decide_eq_true in Hpg, Hcg.
    apply andb_false_iff in Ha2. rewrite !bool_decide_eq_false in Ha2.
    rewrite Hp, Hc in Ha2.
    destruct (side_of_turn k); cbn in *; rewrite Hp, Hc; rewrite Hturn in *; lia.
Qed.

(** X14: the player moves on the even-numbered turns and only the fighter
    who just moved can end the battle, so a battle that starts with both
    fighters standing ends with the CPU down exactly when it took an odd
    number of turns, and with the player down exactly when it took an even
    number. *)
Theorem battle_parity
    (g : Game) (io : Console) (g' : Game) (io' : Console) (n : nat) :
  Battle 0 g io g' io' n ->
  alive g = true ->
  (0 < n)%nat
  /\ (health (cpu g') <= 0 <-> Nat.Odd n)
  /\ (health (player g') <= 0 <-> Nat.Even n).
Proof.
  intros HB Ha. destruct (Battle_last _ _ _ _ _ _ HB Ha) as (Hn & Hup & Hdown).
  split; [done|]. destruct n as [|m]; [lia|].
  replace (0 + S m - 1)%nat with m in * by lia.
  unfold side_of_turn in *.
  rewrite <- Nat.odd_spec, <- Nat.even_spec, Nat.odd_succ, Nat.even_succ.
  rewrite <- Nat.negb_even.
  destruct (Nat.even m); cbn in *; split; split; intros; try done; lia.
Qed.

(** ** One reduction, exactly *)

Lemma reduce_cooldowns_tables_exist g g' :
  reduce_cooldowns g = Ok g' ->
  exists tp tc,
    cooldowns g !! name (player g) = Some tp
    /\ cooldowns g !! name (cpu g) = Some tc.
Proof.
  unfold reduce_cooldowns, reduce_one, getitem. intros H.
  destruct (cooldowns g !! name (player g)) as [tp|] eqn:Hp; cbn in H; [|done].
  destruct (decide (name (player g) = name (cpu g))) as [Heq|Hne].
  - rewrite <- Heq, Hp. eauto.
  - rewrite lookup_insert_ne in H by done.
    destruct (cooldowns g !! name (cpu g)) as [tc|]; [eauto|done].
Qed.


(** X16: the reduction walks the table of the player's name and then the
    table of the CPU's name; when the two fighters bear the same name that
    is one table walked twice, so a single [reduce_cooldowns] applies the
    decrement twice to every entry. *)
Theorem reduce_cooldowns_shared_name_twice (g g' : Game) (move : string) :
  name (player g) = name (cpu g) ->
  reduce_cooldowns g = Ok g' ->
  remaining g' (name (player g)) move
  = tick <$> (tick <$> remaining g (name (player g)) move).
Proof.
  intros Hsame. unfold reduce_cooldowns, reduce_one, getitem, remaining.
  rewrite <- Hsame.
  destruct (cooldowns g !! name (player g)) as [tp|] eqn:Hp; cbn; [|done].
  rewrite lookup_insert_eq. cbn. intros [= <-]. cbn.
  rewrite lookup_insert_eq. cbn. rewrite !lookup_fmap.
  by destruct (tp !! move).
Qed.

(** ** A cooldown between two turns of its owner *)

Lemma apply_move_return_value_aux g att move_key mv b g' out :
  apply_move g att move_key = Ok (b, g', out) ->
  player_moves (fighter att g) !! move_key = Some mv ->
  b = true ->
  remaining g' (name (fighter att g)) (move_name mv)
  = Some (default 0 (cooldown mv)).
Proof.
  intros Hrun Hmv ->.
  apply apply_move_inv in Hrun as (mv' & tbl & cd & Hmv' & Htbl & _ & _ & Hbr).
  assert (mv' = mv) as -> by congruence.
  assert (Hstore : cooldowns g'
                   = <[name (fighter att g) :=
                         <[move_name mv := default 0 (cooldown mv)]> tbl]>
                       (cooldowns g)).
  { inversion Hbr; subst; try done; by destruct att. }
  rewrite (remaining_store g g' _ _ _ _ Htbl Hstore). by rewrite decide_True.
Qed.

Lemma apply_move_other_table g att move_key b g' out who move :
  apply_move g att move_key = Ok (b, g', out) ->
  who <> name (fighter att g) ->
  remaining g' who move = remaining g who move.
Proof.
  intros Hrun Hwho.
  apply apply_move_inv in Hrun as (mv & tbl & cd & _ & Htbl & _ & _ & Hbr).
  assert (Hstore : g' = g
                   \/ cooldowns g'
                      = <[name (fighter att g) :=
                            <[move_name mv := default 0 (cooldown mv)]> tbl]>
                          (cooldowns g)).
  { inversion Hbr; subst; [by left|right..]; try done; by destruct att. }
  destruct Hstore as [->|Hstore]; [done|].
  rewrite (remaining_store g g' _ _ _ _ Htbl Hstore).
  rewrite decide_False; [done|]. intros [? _]. done.
Qed.

(** X17: when the two fighters bear different names, the cooldowns of a
    fighter are reduced twice between two of its turns.  Once a fighter has
    executed a move, the turn has ended, the opponent has taken a turn and
    that turn has ended, the move's remaining cooldown is the configured one
    decremented twice; so a configured cooldown of 2 or less never keeps a
    move from being used on its owner's next turn. *)
Theorem cooldown_at_next_own_turn
    (g : Game) (att : Side) (i j : nat) (mv : Move)
    (g1 g4 : Game) (out1 out : list Line) :
  name (player g) <> name (cpu g) ->
  player_moves (fighter att g) !! i = Some mv ->
  apply_move g att i = Ok (true, g1, out1) ->
  run [Elapse; Execute (opponent att) j; Elapse] g1 = Ok (g4, out) ->
  remaining g4 (name (fighter att g)) (move_name mv)
  = Some (tick (tick (default 0 (cooldown mv))))
  /\ (default 0 (cooldown mv) <= 2 ->
      exists cd, remaining g4 (name (fighter att g)) (move_name mv) = Some cd
                 /\ cd <= 0).
Proof.
  intros Hne Hmv H1 Hrun.
  assert (Hmain : remaining g4 (name (fighter att g)) (move_name mv)
                  = Some (tick (tick (default 0 (cooldown mv))))).
  { cbn in Hrun.
    apply bind_Ok in Hrun as (g2 & Hred2 & Hrun).
    apply bind_Ok in Hrun as ([[b g3] out3] & H3 & Hrun).
    apply bind_Ok in Hrun as ([g4a o4] & Hrun4 & Heq).
    injection Heq as -> _. cbn in Hrun4.
    apply bind_Ok in Hrun4 as (g4b & Hred4 & Heq). injection Heq as -> _.
    pose proof (apply_move_fighters _ _ _ _ _ _ H1) as Hsame1.
    pose proof (apply_move_fighters _ _ _ _ _ _ H3) as Hsame3.
    pose proof (reduce_cooldowns_flags _ _ Hred2) as (_ & Hp2 & Hc2).
    assert (Hn1 : forall s, name (fighter s g1) = name (fighter s g))
      by (intros s; apply Hsame1).
    assert (Hn2 : forall s, name (fighter s g2) = name (fighter s g))
      by (intros s; rewrite (fighter_same g1 g2 s Hp2 Hc2); apply Hn1).
    assert (Hn3 : forall s, name (fighter s g3) = name (fighter s g))
      by (intros s; destruct (Hsame3 s) as [-> _]; apply Hn2).
    pose proof (apply_move_return_value_aux g att i mv true g1 out1 H1 Hmv eq_refl) as Hr1.
    destruct (reduce_cooldowns_tables_exist _ _ Hred2) as (tp & tc & Htp & Htc).
    destruct (reduce_cooldowns_distinct g1 tp tc)
      as (h2 & Hred2' & _ & _ & _ & Hr2); [generalize (Hn1 Player), (Hn1 Cpu); cbn; congruence|done..|].
    assert (h2 = g2) as -> by congruence.
    destruct (reduce_cooldowns_tables_exist _ _ Hred4) as (tp' & tc' & Htp' & Htc').
    destruct (reduce_cooldowns_distinct g3 tp' tc')
      as (h4 & Hred4' & _ & _ & _ & Hr4); [generalize (Hn3 Player), (Hn3 Cpu); cbn; congruence|done..|].
    assert (h4 = g4) as -> by congruence.
    rewrite <- (Hn3 att), Hr4, (Hn3 att).
    rewrite (apply_move_other_table _ _ _ _ _ _ _ _ H3)
      by (rewrite Hn2; apply not_eq_sym, opponent_name_ne, Hne).
    rewrite <- (Hn1 att), Hr2, (Hn1 att), Hr1. done. }
  split; [exact Hmain|]. intros Hle. eexists. split; [exact Hmain|].
  unfold tick. repeat case_bool_decide; lia.
Qed.

(** ** The human's turn *)

(** X18: on the player's turn the move that is executed is the one typed.
    [take_turn] first shows the moves, then skips every typed line that is
    not a number from 1 to the number of moves, printing a complaint for
    each and changing nothing, and executes move [i] for the first accepted
    number [i + 1]; it consumes the typed lines up to that number and no
    random draw. *)
Theorem take_turn_executes_typed_move
    (g : Game) (io : Console) (g' : Game) (io' : Console) (out : list Line) :
  take_turn g Player io = Ok (g', io', out) ->
  exists skipped i b shown lines,
    stdin io = skipped ++ Some (Z.of_nat i + 1) :: stdin io'
    /\ Forall (rejected (length (player_moves (player g)))) skipped
    /\ (i < length (player_moves (player g)))%nat
    /\ entropy io' = entropy io
    /\ show_moves g (player g) = Ok shown
    /\ apply_move g Player i = Ok (b, g', lines)
    /\ out = shown ++ (complaint InvalidMove <$> skipped) ++ lines.
Proof.
  unfold take_turn. cbn [fighter]. rewrite bool_decide_eq_true_2 by done.
  intros H.
  apply bind_Ok in H as ([[idx io1] out1] & Hsel & H).
  apply bind_Ok in H as ([[b g1] lines] & Hmove & H).
  injection H as <- <- <-.
  apply bind_Ok in Hsel as (shown & Hshow & Hsel).
  apply bind_Ok in Hsel as ([[i rest] o] & Hprompt & Hsel).
  injection Hsel as <- <- <-.
  apply prompt_index_inv in Hprompt as (sk & Hstdin & Hsk & Hi & ->).
  exists sk, i, b, shown, lines. cbn. by rewrite <- app_assoc.
Qed.

(** X19: a fighter without moves cannot take a turn.  For the player the
    prompt accepts no number and ends with [EOFError]; for a fighter that is
    not equal to the player [random.choice] is given an empty range and
    raises [IndexError]. *)
Theorem take_turn_without_moves (g : Game) (att : Side) (io : Console) :
  player_moves (fighter att g) = [] ->
  (fighter att g = player g -> take_turn g att io = Raise EOFError)
  /\ (fighter att g <> player g -> take_turn g att io = Raise IndexError).
Proof.
  intros Hnone. unfold take_turn. split; intros Hwho.
  - rewrite bool_decide_eq_true_2 by done.
    unfold show_moves. rewrite Hnone. cbn.
    destruct (prompt_index_shape 0 InvalidMove (stdin io))
      as [([[i rest] o] & Hp)| ->]; [|done].
    apply prompt_index_bound in Hp. lia.
  - rewrite bool_decide_eq_false_2 by done. rewrite Hnone. done.
Qed.

(** ** reset_cooldowns, again *)

(** X20: [reset_cooldowns] clears both defense flags and forgets whatever
    the dictionaries held under the two fighters' names: the tables and
    flags it leaves for them depend on the fighters alone, and resetting
    twice is resetting once. *)
Theorem reset_cooldowns_is_fresh (g h : Game) :
  player h = player g ->
  cpu h = cpu g ->
  flag_of (reset_cooldowns h) (name (player g)) = Some false
  /\ flag_of (reset_cooldowns h) (name (cpu g)) = Some false
  /\ (forall s,
        cooldowns (reset_cooldowns h) !! name (fighter s g)
        = cooldowns (reset_cooldowns g) !! name (fighter s g))
  /\ reset_cooldowns (reset_cooldowns g) = reset_cooldowns g.
Proof.
  intros Hp Hc. unfold flag_of, reset_cooldowns, reset_one. cbn.
  rewrite Hp, Hc. repeat split.
  - rewrite lookup_insert. case_decide; [done|]. by rewrite lookup_insert_eq.
  - by rewrite lookup_insert_eq.
  - intros s. rewrite !lookup_insert.
    case_decide; [done|]. case_decide; [done|]. destruct s; cbn in *; done.
  - unfold set_active_defenses, set_cooldowns. cbn. f_equal.
    + apply map_eq. intros k. rewrite !lookup_insert.
      repeat case_decide; done.
    + apply map_eq. intros k. rewrite !lookup_insert.
      repeat case_decide; done.
Qed.

(** ** Move names as keys *)

(** X21: the cooldown of a move is kept under the move's name.  When two
    moves of a fighter share a name they share one entry: once one of them
    has been executed with a positive configured cooldown, an attempt at the
    other is refused as being on cooldown. *)
Theorem same_named_moves_share_cooldown
    (g : Game) (att : Side) (i j : nat) (mv mv' : Move)
    (g1 : Game) (out1 : list Line) :
  player_moves (fighter att g) !! i = Some mv ->
  player_moves (fighter att g) !! j = Some mv' ->
  move_name mv' = move_name mv ->
  default 0 (cooldown mv) > 0 ->
  apply_move g att i = Ok (true, g1, out1) ->
  apply_move g1 att j = Ok (false, g1, [OnCooldown (move_name mv)]).
Proof.
  intros Hi Hj Hname Hpos H1.
  pose proof (apply_move_return_value_aux g att i mv true g1 out1 H1 Hi eq_refl)
    as Hrem.
  destruct (apply_move_fighters _ _ _ _ _ _ H1 att) as [Hn Hm].
  rewrite <- Hn in Hrem. rewrite <- Hm in Hj.
  apply remaining_Some in Hrem as (tbl & Htbl & Hcd). rewrite <- Hname in Hcd.
  rewrite (apply_move_refused g1 att j mv' tbl _ Hj Htbl Hcd Hpos).
  by rewrite Hname.
Qed.

(** ** A well-formed roster does not crash *)

Lemma take_turn_shape g att io :
  (exists idx,
      (idx < length (player_moves (fighter att g)))%nat
      /\ exists io1 out1,
           take_turn g att io
           = ('(_, g1, out2) ← apply_move g att idx; Ok (g1, io1, out1 ++ out2)))
  \/ take_turn g att io = Raise EOFError
  \/ take_turn g att io = OutOfFuel
  \/ take_turn g att io = Raise IndexError
     /\ player_moves (fighter att g) = [] /\ fighter att g <> player g
  \/ take_turn g att io = Raise KeyError
     /\ exists mv, mv ∈ player_moves (fighter att g)
                   /\ remaining g (name (fighter att g)) (move_name mv) = None.
Proof.
  unfold take_turn. case_bool_decide as Hwho.
  - unfold show_moves.
    destruct (show_moves_from_shape g (name (fighter att g))
                (player_moves (fighter att g)) 0)
      as [(shown & -> & _)|(-> & Hmiss)]; cbn; [|by do 4 right].
    destruct (prompt_index_shape (length (player_moves (fighter att g)))
                InvalidMove (stdin io)) as [([[i rest] o] & Hp)| ->]; cbn.
    + rewrite Hp. cbn. left. exists i.
      split; [by apply prompt_index_bound in Hp|].
      by exists {| stdin := rest; entropy := entropy io |},
                (MovesOf (name (fighter att g)) :: shown ++ o).
    + by right; left.
  - destruct (player_moves (fighter att g)) as [|mv0 moves] eqn:Hmoves.
    + do 3 right. left. done.
    + rewrite <- Hmoves. destruct (entropy io) as [|d rest] eqn:He.
      * right; right; left. rewrite Hmoves. done.
      * rewrite random_choice_range by (rewrite Hmoves; cbn; lia). cbn.
        left. eexists. split; [apply Nat.mod_upper_bound; rewrite Hmoves; done|].
        by eexists _, [].
Qed.

Lemma reset_cooldowns_stocked g :
  name (player g) <> name (cpu g) -> stocked (reset_cooldowns g).
Proof.
  intros Hne s. change (fighter s (reset_cooldowns g)) with (fighter s g).
  split; [|split].
  - unfold flag_of, reset_cooldowns, reset_one. cbn.
    rewrite lookup_insert. case_decide; [done|].
    rewrite lookup_insert. case_decide; [done|]. destruct s; cbn in *; done.
  - unfold reset_cooldowns, reset_one. cbn.
    rewrite lookup_insert. case_decide; [done|].
    rewrite lookup_insert. case_decide; [done|]. destruct s; cbn in *; done.
  - intros mv Hin. rewrite reset_cooldowns_covers; [done|done|by right].
Qed.

Lemma apply_move_safe g att idx :
  stocked g ->
  playable (fighter att g) ->
  (idx < length (player_moves (fighter att g)))%nat ->
  exists b g' out, apply_move g att idx = Ok (b, g', out).
Proof.
  intros Hst Hplay Hidx.
  destruct (lookup_lt_is_Some_2 _ _ Hidx) as [mv Hmv].
  destruct (Hst att) as (_ & _ & Hentries).
  destruct (remaining g (name (fighter att g)) (move_name mv)) as [cd|] eqn:Hrem.
  2: { exfalso. apply (Hentries mv); [by eapply list_elem_of_lookup_2|done]. }
  apply remaining_Some in Hrem as (tbl & Htbl & Hcd).
  destruct (decide (cd > 0)) as [Hpos|Hle].
  { rewrite (apply_move_refused g att idx mv tbl cd Hmv Htbl Hcd Hpos). eauto. }
  rewrite (apply_move_ready g att idx mv tbl cd Hmv Htbl Hcd) by lia.
  destruct (Hst (opponent att)) as (Hflag & _ & _). unfold flag_of in Hflag.
  unfold getitem.
  destruct (active_defenses g !! name (fighter (opponent att) g))
    as [[|]|]; cbn; [eauto| |done].
  unfold playable in Hplay. rewrite Forall_lookup in Hplay.
  destruct (Hplay _ _ Hmv) as [Heff|Hdmg].
  - rewrite Heff. eauto.
  - destruct (is_defensive (effect mv)); [eauto|].
    destruct (damage mv); [cbn; eauto|done].
Qed.

Lemma apply_move_stocked g att idx b g' out :
  apply_move g att idx = Ok (b, g', out) -> stocked g -> stocked g'.
Proof.
  intros Hrun Hst s.
  destruct (apply_move_fighters _ _ _ _ _ _ Hrun s) as [Hn Hm].
  rewrite Hn, Hm. destruct (Hst s) as (Hflag & Htable & Hentries).
  apply apply_move_inv in Hrun as (mv & tbl & cd & _ & Htbl & _ & _ & Hbr).
  assert (Hflags : active_defenses g' = active_defenses g
                   \/ exists k v, active_defenses g' = <[k := v]> (active_defenses g)).
  { inversion Hbr; subst; cbn; eauto. left. by destruct att. }
  assert (Hstore : g' = g
                   \/ cooldowns g'
                      = <[name (fighter att g) :=
                            <[move_name mv := default 0 (cooldown mv)]> tbl]>
                          (cooldowns g)).
  { inversion Hbr; subst; [by left|right..]; try done; by destruct att. }
  split; [|split].
  - unfold flag_of in *. destruct Hflags as [->|(k & v & ->)]; [done|].
    rewrite lookup_insert. by case_decide.
  - destruct Hstore as [-> | ->]; [done|]. rewrite lookup_insert. by case_decide.
  - intros mv' Hin. destruct Hstore as [->|Hstore]; [by apply Hentries|].
    rewrite (remaining_store g g' _ _ _ _ Htbl Hstore).
    destruct (decide _); [done|by apply Hentries].
Qed.

Lemma reduce_one_stocked who g :
  cooldowns g !! who <> None ->
  exists g',
    reduce_one who g = Ok g'
    /\ player g' = player g /\ cpu g' = cpu g
    /\ active_defenses g' = active_defenses g
    /\ (forall w, cooldowns g !! w <> None -> cooldowns g' !! w <> None)
    /\ (forall w m, remaining g w m <> None -> remaining g' w m <> None).
Proof.
  intros Hwho. unfold reduce_one, getitem.
  destruct (cooldowns g !! who) as [tbl|] eqn:Htbl; [|done]. cbn.
  eexists. split; [reflexivity|]. do 3 (split; [reflexivity|]). split.
  - intros w Hw. cbn. rewrite lookup_insert. by case_decide.
  - intros w m. unfold remaining. cbn. rewrite lookup_insert.
    case_decide as Hk; [|done]. subst w. rewrite Htbl. cbn.
    rewrite lookup_fmap. by destruct (tbl !! m).
Qed.

Lemma reduce_cooldowns_stocked g :
  stocked g -> exists g', reduce_cooldowns g = Ok g' /\ stocked g'
                          /\ player g' = player g /\ cpu g' = cpu g.
Proof.
  intros Hst. unfold reduce_cooldowns.
  destruct (Hst Player) as (_ & HtP & _), (Hst Cpu) as (_ & HtC & _).
  cbn in HtP, HtC.
  destruct (reduce_one_stocked (name (player g)) g HtP)
    as (g1 & -> & Hp1 & Hc1 & Hf1 & Ht1 & Hr1). cbn.
  destruct (reduce_one_stocked (name (cpu g)) g1 (Ht1 _ HtC))
    as (g2 & -> & Hp2 & Hc2 & Hf2 & Ht2 & Hr2).
  exists g2. split; [done|]. split; [|split; congruence].
  intros s. rewrite (fighter_same g g2 s) by congruence.
  destruct (Hst s) as (Hflag & Htable & Hentries).
  unfold flag_of in *. rewrite Hf2, Hf1. split; [done|]. split; [auto|].
  intros mv Hin. auto.
Qed.

Lemma play_loop_safe fuel : forall g io turn,
  stocked g ->
  playable (player g) -> playable (cpu g) ->
  player_moves (cpu g) <> [] ->
  (exists r, play_loop fuel g io turn = Ok r)
  \/ play_loop fuel g io turn = OutOfFuel
  \/ play_loop fuel g io turn = Raise EOFError.
Proof.
  induction fuel as [|fuel IH]; intros g io turn Hst Hpp Hpc Hmoves;
    cbn [play_loop]; destruct (alive g); try (left; by eexists); [by right; left|].
  set (att := if bool_decide (turn = 0) then Player else Cpu).
  assert (Hturn : (exists g1 io1 out1,
                      take_turn g att io = Ok (g1, io1, out1) /\ stocked g1
                      /\ player_moves (player g1) = player_moves (player g)
                      /\ player_moves (cpu g1) = player_moves (cpu g))
                  \/ take_turn g att io = OutOfFuel
                  \/ take_turn g att io = Raise EOFError).
  { destruct (take_turn_shape g att io)
      as [(idx & Hidx & io1 & out1 & Heq)|[Heq|[Heq|[(Heq & Hnil & Hwho)|(Heq & mv & Hin & Hnone)]]]].
    - destruct (apply_move_safe g att idx Hst) as (b & g1 & out2 & Hmove);
        [by destruct att|done|].
      left. exists g1, io1, (out1 ++ out2). rewrite Heq, Hmove.
      split; [done|]. split; [by eapply apply_move_stocked|].
      pose proof (apply_move_fighters _ _ _ _ _ _ Hmove) as Hsame.
      split; [apply (Hsame Player)|apply (Hsame Cpu)].
    - by right; right.
    - by right; left.
    - exfalso. destruct att; cbn in *; done.
    - exfalso. destruct (Hst att) as (_ & _ & Hentries). by apply (Hentries mv). }
  assert (Hbody : (if bool_decide (turn = 0)
                   then '(g1, io1, out) ← take_turn g Player io;
                        Ok (g1, io1, YourTurn :: out)
                   else '(g1, io1, out) ← take_turn g Cpu io;
                        Ok (g1, io1, CpuTurn :: out))
                  = ('(g1, io1, out) ← take_turn g att io;
                     Ok (g1, io1,
                         (if bool_decide (turn = 0) then YourTurn else CpuTurn)
                           :: out)))
    by (unfold att; by destruct (bool_decide (turn = 0))).
  rewrite Hbody.
  destruct Hturn as [(g1 & io1 & out1 & -> & Hst1 & Hm1p & Hm1c)|[->| ->]];
    [|by right; left|by right; right].
  cbn. destruct (reduce_cooldowns_stocked g1 Hst1) as (g2 & -> & Hst2 & Hp2 & Hc2).
  cbn.
  destruct (IH g2 io1 (1 - turn) Hst2) as [([[g3 io3] out3] & ->)|[->| ->]].
  - unfold playable in *. by rewrite Hp2, Hm1p.
  - unfold playable in *. by rewrite Hc2, Hm1c.
  - by rewrite Hc2, Hm1c.
  - left. by eexists.
  - by right; left.
  - by right; right.
Qed.

(** X22: a well-formed roster does not crash the battle.  When the two
    fighters bear different names, every move that is not a block or a dodge
    has a "damage" key and the CPU's fighter has at least one move, [play]
    raises neither [KeyError] nor [IndexError]: whatever is typed and drawn,
    it reaches its verdict, is still running when the allowed turns are
    used up, or stops with [EOFError] because the typed input ran out. *)
Theorem well_formed_battle_does_not_crash
    (g : Game) (fuel : nat) (io : Console) :
  name (player g) <> name (cpu g) ->
  playable (player g) ->
  playable (cpu g) ->
  player_moves (cpu g) <> [] ->
  (exists r, play_chosen fuel g io = Ok r)
  \/ play_chosen fuel g io = OutOfFuel
  \/ play_chosen fuel g io = Raise EOFError.
Proof.
  intros Hne Hpp Hpc Hmoves. unfold play_chosen.
  destruct (play_loop_safe fuel (reset_cooldowns g) io 0)
    as [([[g1 io1] out] & ->)|[->| ->]]; try done.
  - by apply reset_cooldowns_stocked.
  - left. by eexists.
  - by right; left.
  - by right; right.
Qed.

(** ** The whole of play *)

(** X23: what a finished [play] amounts to.  The two fighters of the final
    game are two characters taken from two different positions of the
    roster, with their names and moves intact and their health no higher
    than in the roster; somebody's health is at or below 0; the first line
    printed is the roster header and the last one is the verdict. *)
Theorem play_end_to_end
    (fuel : nat) (characters : list Character) (io : Console)
    (g' : Game) (io' : Console) (out : list Line) :
  play fuel characters io = Ok (g', io', out) ->
  exists i j p c,
    i <> j
    /\ characters !! i = Some p
    /\ characters !! j = Some c
    /\ name (player g') = name p /\ name (cpu g') = name c
    /\ player_moves (player g') = player_moves p
    /\ player_moves (cpu g') = player_moves c
    /\ health (player g') <= health p /\ health (cpu g') <= health c
    /\ alive g' = false
    /\ head out = Some AvailableCharacters
    /\ last out = Some (verdict g').
Proof.
  unfold play. intros H.
  apply bind_Ok in H as ([[g io1] out1] & Hchoose & H).
  apply bind_Ok in H as ([[g1 io2] out2] & Hplay & H).
  injection H as <- <- <-.
  assert (Hhead : head out1 = Some AvailableCharacters).
  { unfold choose_character in Hchoose.
    apply bind_Ok in Hchoose as ([[choice rest] o] & _ & Hchoose).
    apply bind_Ok in Hchoose as (p & _ & Hchoose).
    apply bind_Ok in Hchoose as ([c draws] & _ & Hchoose).
    by injection Hchoose as _ _ <-. }
  assert (Hpos : exists i j, i <> j /\ characters !! i = Some (player g)
                             /\ characters !! j = Some (cpu g)).
  { unfold choose_character in Hchoose.
    apply bind_Ok in Hchoose as ([[choice rest] o] & _ & Hchoose).
    apply bind_Ok in Hchoose as (p & Hp & Hchoose).
    apply bind_Ok in Hchoose as ([c draws] & Hc & Hchoose).
    injection Hchoose as <- _ _. cbn.
    unfold index in Hp. destruct (characters !! choice) as [p'|] eqn:Hi; [|done].
    injection Hp as ->.
    apply random_choice_inv in Hc as (d & k & _ & Hk).
    destruct (decide (k < choice)%nat) as [Hlt|Hge].
    - rewrite list_lookup_delete_lt in Hk by done.
      exists choice, k. repeat split; try done. lia.
    - rewrite list_lookup_delete_ge in Hk by lia.
      exists choice, (S k). repeat split; try done. lia. }
  destruct Hpos as (i & j & Hij & Hi & Hj).
  exists i, j, (player g), (cpu g). do 3 (split; [done|]).
  apply play_chosen_inv in Hplay as (out0 & Hloop & ->).
  pose proof (play_loop_exit _ _ _ _ _ _ _ Hloop) as Hover.
  apply (play_loop_sound fuel 0) in Hloop as (n & _ & HB).
  apply Battle_run in HB as (acts & o & Hrun).
  destruct (run_static _ _ _ _ Hrun Player) as (HhP & HnP & _ & HmP).
  destruct (run_static _ _ _ _ Hrun Cpu) as (HhC & HnC & _ & HmC).
  cbn in *. repeat split; try done.
  - destruct out1; [done|]. by injection Hhead as ->.
  - by rewrite app_assoc, last_snoc.
Qed.

(** ** The properties above, on the sample rosters *)

Lemma choose_character_two_positions_witness :
  exists i j,
    i <> j
    /\ Arena.roster !! i = Some (player Arena.picked)
    /\ Arena.roster !! j = Some (cpu Arena.picked)
    /\ (2 <= length Arena.roster)%nat
    /\ cooldowns Arena.picked = ∅
    /\ active_defenses Arena.picked = ∅.
Proof.
  apply (choose_character_two_positions Arena.roster Arena.pick_console
           Arena.picked Sample.silent Arena.pick_lines).
  vm_compute. reflexivity.
Defined.

Lemma choose_character_needs_two_witness :
  (choose_character Arena.loner Arena.full_console = Raise EOFError
   <-> Forall (rejected (length Arena.loner)) (stdin Arena.full_console))
  /\ (choose_character Arena.loner Arena.full_console = Raise IndexError
      <-> ~ Forall (rejected (length Arena.loner)) (stdin Arena.full_console))
  /\ (choose_character Arena.loner Arena.full_console = Raise IndexError
      <-> length Arena.loner = 1%nat
          /\ exists skipped rest,
               stdin Arena.full_console = skipped ++ Some 1 :: rest
               /\ Forall (rejected 1) skipped)
  /\ (Arena.loner = [] ->
      choose_character Arena.loner Arena.full_console = Raise EOFError).
Proof.
  apply (choose_character_needs_two Arena.loner Arena.full_console).
  cbn. lia.
Defined.

Lemma show_moves_lists_cooldowns_witness :
  exists lines,
    ready_lines Sample.A = MovesOf (name Sample.A) :: lines
    /\ length lines = length (player_moves Sample.A)
    /\ forall i mv, player_moves Sample.A !! i = Some mv ->
         exists cd, remaining Sample.start (name Sample.A) (move_name mv) = Some cd
                    /\ lines !! i = Some (MoveLine (S i) (move_name mv) cd).
Proof.
  apply (show_moves_lists_cooldowns Sample.start Sample.A (ready_lines Sample.A)).
  vm_compute. reflexivity.
Defined.

Lemma shared_name_breaks_the_battle_witness :
  apply_move (reset_cooldowns Arena.twins) Player 1 = Raise KeyError
  /\ show_moves (reset_cooldowns Arena.twins) (player Arena.twins) = Raise KeyError
  /\ (alive Arena.twins = true ->
      play_chosen 1 Arena.twins Sample.ko_console = Raise KeyError).
Proof.
  apply (shared_name_breaks_the_battle Arena.twins 0 Sample.ko_console 1
           Sample.sidestep).
  - reflexivity.
  - reflexivity.
  - intros mv' Hin. apply list_elem_of_singleton in Hin. subst mv'. discriminate.
Defined.

Lemma show_moves_after_reset_witness :
  show_moves (reset_cooldowns Sample.chosen) (fighter Cpu Sample.chosen)
  = Ok (ready_lines (fighter Cpu Sample.chosen)).
Proof.
  apply (show_moves_after_reset Sample.chosen Cpu). discriminate.
Defined.

Lemma battle_never_heals_witness :
  health (fighter Cpu Sample.ko_game) <= health (fighter Cpu Sample.chosen)
  /\ name (fighter Cpu Sample.ko_game) = name (fighter Cpu Sample.chosen)
  /\ defense (fighter Cpu Sample.ko_game) = defense (fighter Cpu Sample.chosen)
  /\ player_moves (fighter Cpu Sample.ko_game)
     = player_moves (fighter Cpu Sample.chosen).
Proof.
  apply (battle_never_heals 1 Sample.chosen Sample.ko_console
           Sample.ko_game Sample.silent Sample.ko_out Cpu).
  vm_compute. reflexivity.
Defined.

Lemma apply_move_return_value_witness :
  exists cd,
    remaining Sample.start (name (fighter Player Sample.start))
      (move_name Sample.kick) = Some cd
    /\ (true = true <-> cd <= 0)
    /\ (true = true ->
        remaining Sample.kicked (name (fighter Player Sample.start))
          (move_name Sample.kick)
        = Some (default 0 (cooldown Sample.kick)))
    /\ (true = false ->
        Sample.kicked = Sample.start
        /\ [Dealt "A" "Kick" 22] = [OnCooldown (move_name Sample.kick)]).
Proof.
  apply (apply_move_return_value Sample.start Player 2 Sample.kick true
           Sample.kicked [Dealt "A" "Kick" 22]);
    [vm_compute; reflexivity | reflexivity].
Defined.

Lemma defense_flags_never_both_set_witness :
  ~ (flag_of Sample.skirmish_game (name (player Sample.chosen)) = Some true
     /\ flag_of Sample.skirmish_game (name (cpu Sample.chosen)) = Some true).
Proof.
  apply (defense_flags_never_both_set Sample.chosen Sample.skirmish
           Sample.skirmish_game Sample.skirmish_out);
    [discriminate | vm_compute; reflexivity].
Defined.


Lemma battle_parity_witness :
  (0 < 1)%nat
  /\ (health (cpu Sample.ko_game) <= 0 <-> Nat.Odd 1)
  /\ (health (player Sample.ko_game) <= 0 <-> Nat.Even 1).
Proof.
  apply (battle_parity Sample.start Sample.ko_console Sample.ko_game
           Sample.silent 1);
    [exact knockout_battle | vm_compute; reflexivity].
Defined.


Lemma reduce_cooldowns_shared_name_twice_witness :
  remaining Arena.twins_slammed "A" "Slam" = Some 3
  /\ remaining Arena.twins_ticked "A" "Slam" = Some 1
  /\ remaining Arena.twins_ticked (name (player Arena.twins_slammed)) "Slam"
     = tick <$> (tick <$> remaining Arena.twins_slammed
                            (name (player Arena.twins_slammed)) "Slam").
Proof.
  do 2 (split; [vm_compute; reflexivity|]).
  apply (reduce_cooldowns_shared_name_twice Arena.twins_slammed
           Arena.twins_ticked "Slam");
    vm_compute; reflexivity.
Defined.

Lemma cooldown_at_next_own_turn_witness :
  remaining Arena.next_turn (name (fighter Player Sample.start))
    (move_name Sample.sidestep)
  = Some (tick (tick (default 0 (cooldown Sample.sidestep))))
  /\ (default 0 (cooldown Sample.sidestep) <= 2 ->
      exists cd,
        remaining Arena.next_turn (name (fighter Player Sample.start))
          (move_name Sample.sidestep) = Some cd
        /\ cd <= 0).
Proof.
  apply (cooldown_at_next_own_turn Sample.start Player 1 0 Sample.sidestep
           Sample.sidestepped Arena.next_turn
           [UsedEffect "A" "Sidestep" "dodge next attack"]
           Arena.next_turn_lines);
    [discriminate | reflexivity | vm_compute; reflexivity
    | vm_compute; reflexivity].
Defined.

Lemma take_turn_executes_typed_move_witness :
  exists skipped i b shown lines,
    stdin Sample.dodge_console
    = skipped ++ Some (Z.of_nat i + 1) :: stdin Sample.drawn
    /\ Forall (rejected (length (player_moves (player Sample.start)))) skipped
    /\ (i < length (player_moves (player Sample.start)))%nat
    /\ entropy Sample.drawn = entropy Sample.dodge_console
    /\ show_moves Sample.start (player Sample.start) = Ok shown
    /\ apply_move Sample.start Player i = Ok (b, Sample.dodged, lines)
    /\ Arena.dodge_lines = shown ++ (complaint InvalidMove <$> skipped) ++ lines.
Proof.
  apply (take_turn_executes_typed_move Sample.start Sample.dodge_console
           Sample.dodged Sample.drawn Arena.dodge_lines).
  vm_compute. reflexivity.
Defined.

Lemma take_turn_without_moves_witness :
  (fighter Cpu Arena.idle = player Arena.idle ->
   take_turn Arena.idle Cpu Sample.silent = Raise EOFError)
  /\ (fighter Cpu Arena.idle <> player Arena.idle ->
      take_turn Arena.idle Cpu Sample.silent = Raise IndexError).
Proof.
  apply (take_turn_without_moves Arena.idle Cpu Sample.silent). reflexivity.
Defined.

Lemma reset_cooldowns_is_fresh_witness :
  flag_of (reset_cooldowns Sample.sidestepped) (name (player Sample.chosen))
  = Some false
  /\ flag_of (reset_cooldowns Sample.sidestepped) (name (cpu Sample.chosen))
     = Some false
  /\ (forall s,
        cooldowns (reset_cooldowns Sample.sidestepped)
          !! name (fighter s Sample.chosen)
        = cooldowns (reset_cooldowns Sample.chosen)
            !! name (fighter s Sample.chosen))
  /\ reset_cooldowns (reset_cooldowns Sample.chosen)
     = reset_cooldowns Sample.chosen.
Proof.
  apply (reset_cooldowns_is_fresh Sample.chosen Sample.sidestepped);
    vm_compute; reflexivity.
Defined.

Lemma same_named_moves_share_cooldown_witness :
  apply_move Arena.struck Player 1
  = Ok (false, Arena.struck, [OnCooldown (move_name Arena.jab)]).
Proof.
  apply (same_named_moves_share_cooldown Arena.striker Player 0 1
           Arena.jab Arena.hook Arena.struck [Dealt "S" "Strike" 2]);
    [reflexivity | reflexivity | reflexivity | cbn; lia
    | vm_compute; reflexivity].
Defined.

Lemma well_formed_battle_does_not_crash_witness :
  (exists r, play_chosen 1 Sample.chosen Sample.ko_console = Ok r)
  \/ play_chosen 1 Sample.chosen Sample.ko_console = OutOfFuel
  \/ play_chosen 1 Sample.chosen Sample.ko_console = Raise EOFError.
Proof.
  apply (well_formed_battle_does_not_crash Sample.chosen 1 Sample.ko_console).
  - discriminate.
  - repeat (apply Forall_cons_2 || apply Forall_nil_2);
      first [by left | by right].
  - repeat (apply Forall_cons_2 || apply Forall_nil_2);
      first [by left | by right].
  - discriminate.
Defined.

Lemma play_end_to_end_witness :
  exists i j p c,
    i <> j
    /\ Arena.roster !! i = Some p
    /\ Arena.roster !! j = Some c
    /\ name (player Sample.ko_game) = name p
    /\ name (cpu Sample.ko_game) = name c
    /\ player_moves (player Sample.ko_game) = player_moves p
    /\ player_moves (cpu Sample.ko_game) = player_moves c
    /\ health (player Sample.ko_game) <= health p
    /\ health (cpu Sample.ko_game) <= health c
    /\ alive Sample.ko_game = false
    /\ head Arena.full_out = Some AvailableCharacters
    /\ last Arena.full_out = Some (verdict Sample.ko_game).
Proof.
  apply (play_end_to_end 1 Arena.roster Arena.full_console
           Sample.ko_game Sample.silent Arena.full_out).
  vm_compute. reflexivity.
Defined.

(** A dodge used while the opponent's block is pending is the move that the
    block nullifies: the dodger's flag is not raised and the next punch
    lands. *)
Example dodge_into_pending_block :
  let acts := [Execute Player 0; Elapse; Execute Cpu 1; Elapse;
               Execute Player 1; Elapse; Execute Cpu 0] in
  Sample.lines_after acts Sample.start
    = [Dealt "A" "Punch" 5; UsedEffect "B" "Guard" "blocks next attack";
       BlockedOrDodged "B"; Dealt "B" "Punch" 6]
  /\ health (player (Sample.game_after acts Sample.start)) = 14.
Proof. split; vm_compute; reflexivity. Qed.
